(** * Audio capture pipeline: hand-off queue, history buffer, timestamps
      and the streaming MP3 encoder

    A shallow embedding of [src/audio_stream.hpp], [src/audio_stream.cpp]
    and [src/mp3_encoder.cpp].  C++ objects mutated in place become records
    passed from call to call; undefined behaviour (an index out of range, a
    division by zero, a signed overflow, a float that does not fit the
    integer it is cast to) and exceptions are explicit results. *)

From Stdlib Require Import ZArith List Bool Lia String.
From Stdlib Require Import Floats.SpecFloat.
From stdpp Require Import base list.

Local Open Scope Z_scope.

(* ================================================================= *)
(** ** Results of running C++ code *)

Module Cxx.

(** What a call does: it returns, it runs into undefined behaviour, or a
    loop of it makes no progress. *)
Inductive outcome (A : Type) : Type :=
| Ok (a : A)
| Undefined
| Diverges.
Arguments Ok {A} a.
Arguments Undefined {A}.
Arguments Diverges {A}.

Definition bind {A B : Type} (m : outcome A) (k : A -> outcome B) : outcome B :=
  match m with
  | Ok a => k a
  | Undefined => Undefined
  | Diverges => Diverges
  end.

(** [for (size_t i = start; i < start + n; i++) body]: the loop state is
    threaded through the iterations. *)
Fixpoint for_loop {S : Type} (n : nat) (i : nat)
    (body : nat -> S -> outcome S) (s : S) : outcome S :=
  match n with
  | O => Ok s
  | Datatypes.S n' => bind (body i s) (for_loop n' (Datatypes.S i) body)
  end.

(** [int64_t], the representation of [std::chrono::nanoseconds]. *)
Definition INT64_MAX : Z := 9223372036854775807.
Definition INT64_MIN : Z := -9223372036854775808.

Definition in_int64 (z : Z) : bool := (INT64_MIN <=? z) && (z <=? INT64_MAX).

(** Signed 64-bit addition: an overflow is undefined behaviour. *)
Definition int64_add (a b : Z) : outcome Z :=
  if in_int64 (a + b) then Ok (a + b) else Undefined.

(** [int]: 32 bits. *)
Definition INT_MAX : Z := 2147483647.
Definition INT_MIN : Z := -2147483648.

Definition int_mul (a b : Z) : outcome Z :=
  if (INT_MIN <=? a * b) && (a * b <=? INT_MAX) then Ok (a * b) else Undefined.

(** [static_cast<size_t>] of an [int]: modulo 2^64. *)
Definition to_size_t (z : Z) : nat := Z.to_nat (z mod 2 ^ 64).

(** The two bytes of an [int16_t] as [reinterpret_cast] shows them on a
    little-endian machine. *)
Definition int16_bytes (s : Z) : list Z :=
  let u := s mod 65536 in [Z.land u 255; Z.shiftr u 8].

End Cxx.

Export Cxx.

Declare Scope cxx_scope.
Notation "'let*' x := m 'in' k" := (Cxx.bind m (fun x => k))
  (at level 10, x pattern, m at level 100, k at level 200) : cxx_scope.
Local Open Scope cxx_scope.

(* ================================================================= *)
(** ** [double]: IEEE 754 binary64, round to nearest even *)

Module Double.

Definition prec : Z := 53.
Definition emax : Z := 1024.

Definition double : Type := spec_float.

(** Conversion of an integer ([static_cast<double>]), rounding when the
    integer has more than 53 significant bits. *)
Definition of_Z (z : Z) : double := binary_normalize prec emax z 0 false.

Definition add : double -> double -> double := SFadd prec emax.
Definition sub : double -> double -> double := SFsub prec emax.
Definition mul : double -> double -> double := SFmul prec emax.
Definition div : double -> double -> double := SFdiv prec emax.

(** The integer part of a finite double, rounded toward zero. *)
Definition truncate (x : double) : option Z :=
  match x with
  | S754_zero _ => Some 0
  | S754_finite s m e =>
      let mag := Z.shiftl (Zpos m) e in
      Some (if s then - mag else mag)
  | S754_infinity _ | S754_nan => None
  end.

(** [static_cast<int64_t>(x)]: truncation; undefined when the truncated
    value is no [int64_t] (also for infinities and NaN). *)
Definition to_int64 (x : double) : outcome Z :=
  match truncate x with
  | Some z => if in_int64 z then Ok z else Undefined
  | None => Undefined
  end.

End Double.

(* ================================================================= *)
(** ** [std::chrono] *)

Module Chrono.

(** [duration_cast<nanoseconds>(duration<double>(secs))]: the count is
    multiplied by the ratio 10^9 in [double], then cast to [int64_t]. *)
Definition duration_cast_ns (secs : Double.double) : outcome Z :=
  Double.to_int64 (Double.mul secs (Double.of_Z 1000000000)).

End Chrono.

(* ================================================================= *)
(** ** [boost::lockfree::spsc_queue<T, capacity<N>>]

    Used through [push] and [pop] only.  With one producer and one consumer
    the queue is a bounded FIFO: [push] returns [false] and stores nothing
    when [N] elements are queued, [pop] returns [false] when none is. *)

Module spsc_queue.
Section Queue.
Context {T : Type}.
Variable capacity : nat.

Definition push (x : T) (q : list T) : list T * bool :=
  if (length q <? capacity)%nat then (q ++ [x], true) else (q, false).

Definition pop (q : list T) : option (T * list T) :=
  match q with
  | [] => None
  | x :: q' => Some (x, q')
  end.

End Queue.
End spsc_queue.

(* ================================================================= *)
(** ** [viam::sdk]: the two value types the stream uses, with the members
    it reads and writes *)

Module vsdk.

Record audio_info : Type := {
  codec : string;
  sample_rate_hz : Z;
  num_channels : Z
}.

Module AudioIn.
Record audio_chunk : Type := {
  audio_data : list Z;            (* bytes *)
  info : audio_info;
  start_timestamp_ns : Z;
  end_timestamp_ns : Z
}.

(** A value-initialised chunk, as [vector::resize] creates them. *)
Definition empty_chunk : audio_chunk :=
  {| audio_data := [];
     info := {| codec := ""; sample_rate_hz := 0; num_channels := 0 |};
     start_timestamp_ns := 0;
     end_timestamp_ns := 0 |}.
End AudioIn.

End vsdk.

(* ================================================================= *)
(** ** [audio_stream.hpp], [audio_stream.cpp] *)

Module audio_stream.
Import vsdk.

(** [PaStreamCallbackTimeInfo]: only the capture time of the first sample
    of the delivery is read. *)
Record PaStreamCallbackTimeInfo : Type := {
  inputBufferAdcTime : Double.double
}.

Definition paContinue : Z := 0.

(** [struct AudioStreamContext].  [stream_start_time] is the count of the
    system clock's time point, in nanoseconds since the epoch. *)
Record AudioStreamContext : Type := {
  lockfree_queue : list AudioIn.audio_chunk;
  history_buffer : list AudioIn.audio_chunk;
  history_write_index : nat;
  history_capacity : nat;
  info : audio_info;
  working_buffer : list Z;
  samples_per_chunk : nat;
  current_sample_count : nat;
  stream_start_time : Z;
  current_chunk_start_ns : Z;
  first_callback_adc_time : Double.double;
  first_callback_captured : bool;
  is_recording : bool
}.

(** The capacity of [lockfree_queue], a template argument. *)
Definition queue_capacity : nat := 100.

(** Assignments to members. *)
Definition set_lockfree_queue (q : list AudioIn.audio_chunk)
    (ctx : AudioStreamContext) : AudioStreamContext :=
  {| lockfree_queue := q;
     history_buffer := history_buffer ctx;
     history_write_index := history_write_index ctx;
     history_capacity := history_capacity ctx;
     info := info ctx;
     working_buffer := working_buffer ctx;
     samples_per_chunk := samples_per_chunk ctx;
     current_sample_count := current_sample_count ctx;
     stream_start_time := stream_start_time ctx;
     current_chunk_start_ns := current_chunk_start_ns ctx;
     first_callback_adc_time := first_callback_adc_time ctx;
     first_callback_captured := first_callback_captured ctx;
     is_recording := is_recording ctx |}.

Definition set_history (buf : list AudioIn.audio_chunk) (idx : nat)
    (ctx : AudioStreamContext) : AudioStreamContext :=
  {| lockfree_queue := lockfree_queue ctx;
     history_buffer := buf;
     history_write_index := idx;
     history_capacity := history_capacity ctx;
     info := info ctx;
     working_buffer := working_buffer ctx;
     samples_per_chunk := samples_per_chunk ctx;
     current_sample_count := current_sample_count ctx;
     stream_start_time := stream_start_time ctx;
     current_chunk_start_ns := current_chunk_start_ns ctx;
     first_callback_adc_time := first_callback_adc_time ctx;
     first_callback_captured := first_callback_captured ctx;
     is_recording := is_recording ctx |}.

Definition set_working_buffer (wb : list Z)
    (ctx : AudioStreamContext) : AudioStreamContext :=
  {| lockfree_queue := lockfree_queue ctx;
     history_buffer := history_buffer ctx;
     history_write_index := history_write_index ctx;
     history_capacity := history_capacity ctx;
     info := info ctx;
     working_buffer := wb;
     samples_per_chunk := samples_per_chunk ctx;
     current_sample_count := current_sample_count ctx;
     stream_start_time := stream_start_time ctx;
     current_chunk_start_ns := current_chunk_start_ns ctx;
     first_callback_adc_time := first_callback_adc_time ctx;
     first_callback_captured := first_callback_captured ctx;
     is_recording := is_recording ctx |}.

Definition set_current_sample_count (n : nat)
    (ctx : AudioStreamContext) : AudioStreamContext :=
  {| lockfree_queue := lockfree_queue ctx;
     history_buffer := history_buffer ctx;
     history_write_index := history_write_index ctx;
     history_capacity := history_capacity ctx;
     info := info ctx;
     working_buffer := working_buffer ctx;
     samples_per_chunk := samples_per_chunk ctx;
     current_sample_count := n;
     stream_start_time := stream_start_time ctx;
     current_chunk_start_ns := current_chunk_start_ns ctx;
     first_callback_adc_time := first_callback_adc_time ctx;
     first_callback_captured := first_callback_captured ctx;
     is_recording := is_recording ctx |}.

Definition set_current_chunk_start_ns (t : Z)
    (ctx : AudioStreamContext) : AudioStreamContext :=
  {| lockfree_queue := lockfree_queue ctx;
     history_buffer := history_buffer ctx;
     history_write_index := history_write_index ctx;
     history_capacity := history_capacity ctx;
     info := info ctx;
     working_buffer := working_buffer ctx;
     samples_per_chunk := samples_per_chunk ctx;
     current_sample_count := current_sample_count ctx;
     stream_start_time := stream_start_time ctx;
     current_chunk_start_ns := t;
     first_callback_adc_time := first_callback_adc_time ctx;
     first_callback_captured := first_callback_captured ctx;
     is_recording := is_recording ctx |}.

(** The three assignments of the first callback. *)
Definition set_anchor (adc : Double.double) (now : Z)
    (ctx : AudioStreamContext) : AudioStreamContext :=
  {| lockfree_queue := lockfree_queue ctx;
     history_buffer := history_buffer ctx;
     history_write_index := history_write_index ctx;
     history_capacity := history_capacity ctx;
     info := info ctx;
     working_buffer := working_buffer ctx;
     samples_per_chunk := samples_per_chunk ctx;
     current_sample_count := current_sample_count ctx;
     stream_start_time := now;
     current_chunk_start_ns := current_chunk_start_ns ctx;
     first_callback_adc_time := adc;
     first_callback_captured := true;
     is_recording := is_recording ctx |}.

(** [is_recording.store(b)]. *)
Definition set_is_recording (b : bool)
    (ctx : AudioStreamContext) : AudioStreamContext :=
  {| lockfree_queue := lockfree_queue ctx;
     history_buffer := history_buffer ctx;
     history_write_index := history_write_index ctx;
     history_capacity := history_capacity ctx;
     info := info ctx;
     working_buffer := working_buffer ctx;
     samples_per_chunk := samples_per_chunk ctx;
     current_sample_count := current_sample_count ctx;
     stream_start_time := stream_start_time ctx;
     current_chunk_start_ns := current_chunk_start_ns ctx;
     first_callback_adc_time := first_callback_adc_time ctx;
     first_callback_captured := first_callback_captured ctx;
     is_recording := b |}.

(** The constructor.  [stream_start_time] is default-constructed (the
    epoch) until the first callback sets it.  The working buffer has no
    element when the channel count is not positive. *)
Definition make_context (audio_info : audio_info) (samples_per_chunk : nat)
    (history_capacity : nat) : AudioStreamContext :=
  {| lockfree_queue := [];
     history_buffer := replicate history_capacity AudioIn.empty_chunk;
     history_write_index := 0;
     history_capacity := history_capacity;
     info := audio_info;
     working_buffer :=
       replicate (samples_per_chunk * Z.to_nat (num_channels audio_info)) 0;
     samples_per_chunk := samples_per_chunk;
     current_sample_count := 0;
     stream_start_time := 0;
     current_chunk_start_ns := 0;
     first_callback_adc_time := Double.of_Z 0;
     first_callback_captured := false;
     is_recording := true |}.

(** [history_capacity = 100], the default argument. *)
Definition default_history_capacity : nat := 100.

(** [push_chunk]: the result of [lockfree_queue.push] is dropped. *)
Definition push_chunk (chunk : AudioIn.audio_chunk)
    (ctx : AudioStreamContext) : AudioStreamContext :=
  set_lockfree_queue
    (fst (spsc_queue.push queue_capacity chunk (lockfree_queue ctx))) ctx.

(** The block under the lock in [get_new_chunks]: the slot at the write
    index is overwritten and the index advances modulo the capacity. *)
Definition history_record (chunk : AudioIn.audio_chunk)
    (ctx : AudioStreamContext) : outcome AudioStreamContext :=
  let i := history_write_index ctx in
  if (i <? length (history_buffer ctx))%nat then
    if (history_capacity ctx =? 0)%nat then Undefined
    else Ok (set_history (<[i := chunk]> (history_buffer ctx))
                         ((i + 1) mod history_capacity ctx)%nat ctx)
  else Undefined.

(** [while (lockfree_queue.pop(chunk)) { ... }].  No producer runs during
    the drain, so the queued chunks bound the iterations. *)
Fixpoint get_new_chunks_loop (fuel : nat) (ctx : AudioStreamContext)
    (result : list AudioIn.audio_chunk)
    : outcome (AudioStreamContext * list AudioIn.audio_chunk) :=
  match spsc_queue.pop (lockfree_queue ctx) with
  | None => Ok (ctx, result)
  | Some (chunk, q') =>
      match fuel with
      | O => Diverges
      | S fuel' =>
          let* ctx' := history_record chunk (set_lockfree_queue q' ctx) in
          get_new_chunks_loop fuel' ctx' (result ++ [chunk])
      end
  end.

Definition get_new_chunks (ctx : AudioStreamContext)
    : outcome (AudioStreamContext * list AudioIn.audio_chunk) :=
  get_new_chunks_loop (length (lockfree_queue ctx)) ctx [].

(** One iteration of the scan of [get_chunks_from_timestamp]. *)
Definition timestamp_scan_step (ctx : AudioStreamContext)
    (start_timestamp_ns end_timestamp_ns : Z)
    (i : nat) (result : list AudioIn.audio_chunk)
    : outcome (list AudioIn.audio_chunk) :=
  match history_buffer ctx !! i with
  | None => Undefined
  | Some chunk =>
      if AudioIn.start_timestamp_ns chunk =? 0 then Ok result
      else if (start_timestamp_ns <=? AudioIn.start_timestamp_ns chunk)
              && (AudioIn.start_timestamp_ns chunk <? end_timestamp_ns)
      then Ok (result ++ [chunk])
      else Ok result
  end.

Definition get_chunks_from_timestamp (ctx : AudioStreamContext)
    (start_timestamp_ns end_timestamp_ns : Z)
    : outcome (list AudioIn.audio_chunk) :=
  for_loop (history_capacity ctx) 0
    (timestamp_scan_step ctx start_timestamp_ns end_timestamp_ns) [].

(** One iteration of the scan of [get_available_time_range], on the pair
    [(oldest, newest)]. *)
Definition time_range_step (ctx : AudioStreamContext)
    (i : nat) (acc : Z * Z) : outcome (Z * Z) :=
  match history_buffer ctx !! i with
  | None => Undefined
  | Some chunk =>
      if AudioIn.start_timestamp_ns chunk =? 0 then Ok acc
      else Ok (Z.min (fst acc) (AudioIn.start_timestamp_ns chunk),
               Z.max (snd acc) (AudioIn.end_timestamp_ns chunk))
  end.

Definition get_available_time_range (ctx : AudioStreamContext)
    : outcome (Z * Z) :=
  let* (oldest, newest) :=
     for_loop (history_capacity ctx) 0 (time_range_step ctx) (INT64_MAX, 0) in
  if oldest =? INT64_MAX then Ok (0, 0) else Ok (oldest, newest).

(** [calculate_sample_timestamp].  [sample_index] is an [unsigned long],
    converted to [double] by the product. *)
Definition calculate_sample_timestamp (ctx : AudioStreamContext)
    (seconds_since_stream_start : Double.double) (sample_index : Z)
    : outcome Z :=
  let seconds_per_sample :=
    Double.div (Double.of_Z 1) (Double.of_Z (sample_rate_hz (info ctx))) in
  let sample_elapsed_seconds :=
    Double.add seconds_since_stream_start
               (Double.mul (Double.of_Z sample_index) seconds_per_sample) in
  let* sample_elapsed_duration :=
    Chrono.duration_cast_ns sample_elapsed_seconds in
  int64_add (stream_start_time ctx) sample_elapsed_duration.

(** [dst_frame[ch] = src_frame[ch]], with [src_frame = &input[i * nc]] and
    [dst_frame = &working_buffer[buffer_idx * nc]]. *)
Definition copy_channel (input : list Z) (nc i buffer_idx : nat)
    (ch : nat) (wb : list Z) : outcome (list Z) :=
  match input !! (i * nc + ch)%nat with
  | None => Undefined
  | Some v =>
      if (buffer_idx * nc + ch <? length wb)%nat
      then Ok (<[(buffer_idx * nc + ch)%nat := v]> wb)
      else Undefined
  end.

(** [audio_samples[j] = working_buffer[j]] through the [int16_t] view of
    the chunk's bytes. *)
Definition copy_sample (wb : list Z) (j : nat) (data : list Z)
    : outcome (list Z) :=
  match wb !! j with
  | None => Undefined
  | Some v =>
      match int16_bytes v with
      | [lo; hi] => Ok (<[(2 * j + 1)%nat := hi]> (<[(2 * j)%nat := lo]> data))
      | _ => Undefined
      end
  end.

(** The chunk built when the working buffer is full. *)
Definition make_chunk (ctx : AudioStreamContext) : outcome AudioIn.audio_chunk :=
  let total_samples :=
    (samples_per_chunk ctx * Z.to_nat (num_channels (info ctx)))%nat in
  let* data :=
    for_loop total_samples 0 (copy_sample (working_buffer ctx))
             (replicate (total_samples * 2) 0) in
  let* chunk_ns :=
    Chrono.duration_cast_ns
      (Double.div (Double.of_Z (Z.of_nat (samples_per_chunk ctx)))
                  (Double.of_Z (sample_rate_hz (info ctx)))) in
  let* end_ns := int64_add (current_chunk_start_ns ctx) chunk_ns in
  Ok {| AudioIn.audio_data := data;
        AudioIn.info := info ctx;
        AudioIn.start_timestamp_ns := current_chunk_start_ns ctx;
        AudioIn.end_timestamp_ns := end_ns |}.

(** The body of [while (i < framesPerBuffer)].  The channel count is an
    [int] compared with an [unsigned int]: a negative one makes the copy
    run off both buffers. *)
Definition callback_frame (input : list Z)
    (seconds_since_stream_start : Double.double)
    (i : nat) (ctx : AudioStreamContext) : outcome AudioStreamContext :=
  let buffer_idx := current_sample_count ctx in
  let* ctx :=
    (if (buffer_idx =? 0)%nat then
       let* t := calculate_sample_timestamp ctx seconds_since_stream_start
                                             (Z.of_nat i) in
       Ok (set_current_chunk_start_ns t ctx)
     else Ok ctx) in
  if num_channels (info ctx) <? 0 then Undefined else
  let nc := Z.to_nat (num_channels (info ctx)) in
  let* wb :=
    for_loop nc 0 (copy_channel input nc i buffer_idx) (working_buffer ctx) in
  let ctx := set_current_sample_count (S buffer_idx) (set_working_buffer wb ctx) in
  if (current_sample_count ctx =? samples_per_chunk ctx)%nat then
    let* chunk := make_chunk ctx in
    Ok (set_current_sample_count 0 (push_chunk chunk ctx))
  else Ok ctx.

(** [AudioCallback].  [inputBuffer] is [None] for a null pointer; [now] is
    what [system_clock::now()] returns if the callback reads the clock.
    [outputBuffer] and [statusFlags] are not read. *)
Definition AudioCallback (inputBuffer : option (list Z))
    (framesPerBuffer : nat) (timeInfo : PaStreamCallbackTimeInfo) (now : Z)
    (ctx : AudioStreamContext) : outcome (AudioStreamContext * Z) :=
  match inputBuffer with
  | None => Ok (ctx, paContinue)
  | Some input =>
      if negb (is_recording ctx) then Ok (ctx, paContinue) else
      let ctx :=
        if negb (first_callback_captured ctx)
        then set_anchor (inputBufferAdcTime timeInfo) now ctx
        else ctx in
      let seconds_since_stream_start :=
        Double.sub (inputBufferAdcTime timeInfo) (first_callback_adc_time ctx) in
      let* ctx :=
        for_loop framesPerBuffer 0
                 (callback_frame input seconds_since_stream_start) ctx in
      Ok (ctx, paContinue)
  end.

(** *** Invariants of a context *)

(** The history vector has [history_capacity] slots: the constructor
    resizes it and nothing resizes it again. *)
Definition history_sized (ctx : AudioStreamContext) : Prop :=
  length (history_buffer ctx) = history_capacity ctx.

(** The write index names a slot. *)
Definition history_writable (ctx : AudioStreamContext) : Prop :=
  (history_write_index ctx < history_capacity ctx)%nat.

(** *** The claims' words, for comparison with the code *)

(** A slot holds a chunk when its start timestamp is not the sentinel. *)
Definition occupied (c : AudioIn.audio_chunk) : bool :=
  negb (AudioIn.start_timestamp_ns c =? 0).

(** The chunks a query for [startNs, endNs) is to return. *)
Definition in_query_range (startNs endNs : Z) (c : AudioIn.audio_chunk) : bool :=
  occupied c
  && (startNs <=? AudioIn.start_timestamp_ns c)
  && (AudioIn.start_timestamp_ns c <? endNs).

(** The available range in the claim's words: [(0, 0)] when every slot is
    empty, otherwise the least start and the greatest end timestamp of the
    occupied slots. *)
Definition claimed_time_range (buf : list AudioIn.audio_chunk) : Z * Z :=
  match List.filter occupied buf with
  | [] => (0, 0)
  | c :: live =>
      (fold_right Z.min (AudioIn.start_timestamp_ns c)
                  (map AudioIn.start_timestamp_ns live),
       fold_right Z.max (AudioIn.end_timestamp_ns c)
                  (map AudioIn.end_timestamp_ns live))
  end.

(** The scan of [get_available_time_range] as a fold over the occupied
    slots it visits. *)
Definition widen (acc : Z * Z) (c : AudioIn.audio_chunk) : Z * Z :=
  (Z.min (fst acc) (AudioIn.start_timestamp_ns c),
   Z.max (snd acc) (AudioIn.end_timestamp_ns c)).

(** A sequence of calls of [push_chunk], in the order of the list. *)
Definition push_chunks (ctx : AudioStreamContext)
    (chunks : list AudioIn.audio_chunk) : AudioStreamContext :=
  fold_left (fun ctx chunk => push_chunk chunk ctx) chunks ctx.

(** Test fixture [CreateTestChunk]: 100 samples [i * 100 + sequence] and a
    duration of 100 ms. *)
Definition CreateTestChunk (ctx : AudioStreamContext) (sequence : Z)
    (start_ns : Z) : AudioIn.audio_chunk :=
  {| AudioIn.audio_data :=
       flat_map (fun i => int16_bytes (Z.of_nat i * 100 + sequence)) (seq 0 100);
     AudioIn.info := info ctx;
     AudioIn.start_timestamp_ns := start_ns;
     AudioIn.end_timestamp_ns := start_ns + 100000000 |}.

(** The fixture's context: mono, 44.1 kHz, chunks of 100 ms. *)
Definition test_context : AudioStreamContext :=
  make_context {| codec := "pcm16"; sample_rate_hz := 44100; num_channels := 1 |}
               4410 default_history_capacity.

(** The history of the tests [GetChunksFromTimestampFiltersCorrectly] and
    [GetAvailableTimeRangeReturnsCorrectRange]: chunks starting at 1 s, 2 s
    and 3 s. *)
Definition history_1_2_3 : AudioStreamContext :=
  set_history
    [CreateTestChunk test_context 1 1000000000;
     CreateTestChunk test_context 2 2000000000;
     CreateTestChunk test_context 3 3000000000]
    0
    (make_context (info test_context) 4410 3).

(** The timestamp in the claim's words, for a whole number [E] of elapsed
    seconds: [T0 + E + i/R] seconds as nanoseconds, in exact arithmetic and
    rounded down. *)
Definition claimed_sample_timestamp (T0 E i R : Z) : Z :=
  T0 + (E * R + i) * 1000000000 / R.

(** The code's timestamp is the exact one rounded down, or one nanosecond
    less, for every sample index below [n] of a delivery that starts [E]
    whole seconds after the anchor. *)
Definition within_one_ns (ctx : AudioStreamContext) (E : Z) (n : nat) : bool :=
  forallb
    (fun i =>
       let exact :=
         claimed_sample_timestamp (stream_start_time ctx) E i
                                  (sample_rate_hz (info ctx)) in
       match calculate_sample_timestamp ctx (Double.of_Z E) i with
       | Ok t => (t =? exact) || (t =? exact - 1)
       | _ => false
       end)
    (map Z.of_nat (seq 0 n)).

(** A mono stream at [rate] Hz with chunks of [rate / 10] frames, anchored
    at the wall-clock time [T0] and the device time 0. *)
Definition anchored_context (rate T0 : Z) : AudioStreamContext :=
  set_anchor (Double.of_Z 0) T0
    (make_context {| codec := "pcm16"; sample_rate_hz := rate; num_channels := 1 |}
                  (Z.to_nat (rate / 10)) default_history_capacity).

(** A stereo stream at 4 Hz with chunks of two frames and three slots of
    history, and a delivery of five frames to it. *)
Definition tiny_context : AudioStreamContext :=
  make_context {| codec := "pcm16"; sample_rate_hz := 4; num_channels := 2 |} 2 3.

Definition five_frames : list Z := [1; 2; 3; 4; 5; 6; 7; 8; 9; 10].

(** A history whose only chunk starts at the last instant an [int64_t]
    can name, and one whose only chunk was recorded before the epoch. *)
Definition history_far_future : AudioStreamContext :=
  set_history
    [{| AudioIn.audio_data := []; AudioIn.info := info test_context;
        AudioIn.start_timestamp_ns := INT64_MAX;
        AudioIn.end_timestamp_ns := INT64_MAX |}]
    0
    (make_context (info test_context) 4410 1).

Definition history_before_epoch : AudioStreamContext :=
  set_history
    [CreateTestChunk test_context 1 (-500000000)]
    0
    (make_context (info test_context) 4410 1).

End audio_stream.

(* ================================================================= *)
(** ** [libavcodec], as [mp3_encoder.cpp] calls it *)

Module libav.

Inductive AVSampleFormat : Type :=
| AV_SAMPLE_FMT_NONE
| AV_SAMPLE_FMT_S16P.

(** [AVFrame]: [data] are the planes, one per channel, of 16-bit samples. *)
Module AVFrame.
Record t : Type := {
  nb_samples : Z;
  format : AVSampleFormat;
  ch_layout : Z;
  data : list (list Z)
}.
Definition set_data (d : list (list Z)) (f : t) : t :=
  {| nb_samples := nb_samples f; format := format f;
     ch_layout := ch_layout f; data := d |}.
End AVFrame.

(** [AVCodecContext]: the members the encoder sets or reads, and the
    codec's own state behind them. *)
Module AVCodecContext.
Record t (S : Type) : Type := {
  sample_rate : Z;
  ch_layout : Z;
  sample_fmt : AVSampleFormat;
  bit_rate : Z;
  frame_size : Z;
  priv_data : S
}.
Arguments sample_rate {S} _.
Arguments ch_layout {S} _.
Arguments sample_fmt {S} _.
Arguments bit_rate {S} _.
Arguments frame_size {S} _.
Arguments priv_data {S} _.
Definition set_priv_data {S : Type} (p : S) (c : t S) : t S :=
  {| sample_rate := sample_rate c; ch_layout := ch_layout c;
     sample_fmt := sample_fmt c; bit_rate := bit_rate c;
     frame_size := frame_size c; priv_data := p |}.
End AVCodecContext.

(** The library is a parameter of the encoder.  [av_state] is what a call
    may read and change on the library's side: the codec's buffered input
    and output, and the allocator.  [avcodec_receive_packet] hands out
    finitely many packets before it answers something else than 0:
    [pending] bounds them. *)
Class LibAV : Type := {
  av_state : Type;
  AVERROR_EAGAIN : Z;
  AVERROR_EOF : Z;
  avcodec_find_encoder : bool;
  avcodec_alloc_context3 : option (AVCodecContext.t av_state);
  avcodec_open2 : AVCodecContext.t av_state -> Z * AVCodecContext.t av_state;
  av_frame_alloc : option AVFrame.t;
  av_frame_get_buffer : AVFrame.t -> Z * AVFrame.t;
  av_packet_alloc : av_state -> bool;
  avcodec_send_frame : av_state -> option AVFrame.t -> Z * av_state;
  avcodec_receive_packet : av_state -> Z * list Z * av_state;
  pending : av_state -> nat;
  AVERROR_EAGAIN_negative : AVERROR_EAGAIN < 0;
  AVERROR_EOF_negative : AVERROR_EOF < 0;
  receive_packet_progress :
    forall s pkt s',
      avcodec_receive_packet s = (0, pkt, s') -> (pending s' < pending s)%nat
}.

End libav.

(* ================================================================= *)
(** ** [mp3_encoder.cpp] *)

Module mp3_encoder.
Import libav.

(** [std::runtime_error]. *)
Inductive exception : Type :=
| runtime_error (what : string).

(** How a call that may throw ends. *)
Inductive completion : Type :=
| Returned
| Thrown (e : exception).

(** The records written with [VIAM_SDK_LOG]. *)
Inductive severity : Type := info | warn.

Inductive log_record : Type :=
| log_initialized (sample_rate num_channels frame_size : Z)
| log_encoder_error (ret : Z)
| log_flushed (flushed_packets : Z)
| log_discarded (samples : Z).

Definition severity_of (r : log_record) : severity :=
  match r with
  | log_encoder_error _ => warn
  | _ => info
  end.

Section Encoder.
Context `{LibAV}.

(** Modelled from the spec: the declaration of [MP3EncoderState]
    ([mp3_encoder.hpp]) is not among the sources; its members are the ones
    [mp3_encoder.cpp] and its test read and write.  A null smart pointer is
    [None]. *)
Record MP3EncoderState : Type := {
  encoder_ctx : option (AVCodecContext.t av_state);
  frame : option AVFrame.t;
  sample_rate : Z;
  num_channels : Z;
  buffer : list Z
}.

(** A default-constructed state. *)
Definition fresh_state : MP3EncoderState :=
  {| encoder_ctx := None; frame := None;
     sample_rate := 0; num_channels := 0; buffer := [] |}.

Definition set_encoder_ctx (c : option (AVCodecContext.t av_state))
    (state : MP3EncoderState) : MP3EncoderState :=
  {| encoder_ctx := c; frame := frame state;
     sample_rate := sample_rate state; num_channels := num_channels state;
     buffer := buffer state |}.

Definition set_frame (f : option AVFrame.t)
    (state : MP3EncoderState) : MP3EncoderState :=
  {| encoder_ctx := encoder_ctx state; frame := f;
     sample_rate := sample_rate state; num_channels := num_channels state;
     buffer := buffer state |}.

Definition set_buffer (b : list Z)
    (state : MP3EncoderState) : MP3EncoderState :=
  {| encoder_ctx := encoder_ctx state; frame := frame state;
     sample_rate := sample_rate state; num_channels := num_channels state;
     buffer := b |}.

(** A call through [state.encoder_ctx.get()] that changes the codec. *)
Definition set_codec (s : av_state) (c : AVCodecContext.t av_state)
    (state : MP3EncoderState) : MP3EncoderState :=
  set_encoder_ctx (Some (AVCodecContext.set_priv_data s c)) state.

(** [plane[i] = interleaved[i * num_channels + ch]]. *)
Definition deinterleave_sample (interleaved : list Z) (nc ch : nat)
    (i : nat) (plane : list Z) : outcome (list Z) :=
  match interleaved !! (i * nc + ch)%nat with
  | None => Undefined
  | Some v =>
      if (i <? length plane)%nat then Ok (<[i := v]> plane) else Undefined
  end.

(** The inner loop of [deinterleave_samples], on the plane of channel
    [ch]; a channel without a plane is a null pointer. *)
Definition deinterleave_plane (interleaved : list Z) (frame_size nc : nat)
    (ch : nat) (planes : list (list Z)) : outcome (list (list Z)) :=
  match planes !! ch with
  | None => Undefined
  | Some plane =>
      let* plane' :=
        for_loop frame_size 0 (deinterleave_sample interleaved nc ch) plane in
      Ok (<[ch := plane']> planes)
  end.

Definition deinterleave_samples (interleaved : list Z) (frame : AVFrame.t)
    (frame_size num_channels : Z) : outcome AVFrame.t :=
  let* planes :=
    for_loop (Z.to_nat num_channels) 0
      (deinterleave_plane interleaved (Z.to_nat frame_size)
                          (Z.to_nat num_channels))
      (AVFrame.data frame) in
  Ok (AVFrame.set_data planes frame).

(** What [initialize_mp3_encoder] leaves behind. *)
Record initialized : Type := {
  init_state : MP3EncoderState;
  init_log : list log_record;
  init_completion : completion
}.

Definition initialize_mp3_encoder (state : MP3EncoderState)
    (sample_rate num_channels : Z) : initialized :=
  let throw state what :=
    {| init_state := state; init_log := [];
       init_completion := Thrown (runtime_error what) |} in
  if negb avcodec_find_encoder then throw state "MP3 encoder not found"%string
  else
  match avcodec_alloc_context3 with
  | None => throw state "Could not allocate MP3 encoder context"%string
  | Some c0 =>
      let configured :=
        {| AVCodecContext.sample_rate := sample_rate;
           AVCodecContext.ch_layout := num_channels;
           AVCodecContext.sample_fmt := AV_SAMPLE_FMT_S16P;
           AVCodecContext.bit_rate := 192000;
           AVCodecContext.frame_size := 1152;
           AVCodecContext.priv_data := AVCodecContext.priv_data c0 |} in
      let '(ret, c) := avcodec_open2 configured in
      let state := set_encoder_ctx (Some c) state in
      if ret <? 0 then throw state "Could not open MP3 encoder"%string
      else
      match av_frame_alloc with
      | None => throw state "Could not allocate MP3 frame"%string
      | Some f0 =>
          let f :=
            {| AVFrame.nb_samples := AVCodecContext.frame_size c;
               AVFrame.format := AVCodecContext.sample_fmt c;
               AVFrame.ch_layout := AVCodecContext.ch_layout c;
               AVFrame.data := AVFrame.data f0 |} in
          let '(ret, f) := av_frame_get_buffer f in
          let state := set_frame (Some f) state in
          if ret <? 0 then throw state "Could not allocate MP3 frame buffer"%string
          else
          {| init_state :=
               {| encoder_ctx := encoder_ctx state; frame := frame state;
                  sample_rate := sample_rate; num_channels := num_channels;
                  buffer := [] |};
             init_log :=
               [log_initialized sample_rate num_channels
                                (AVCodecContext.frame_size c)];
             init_completion := Returned |}
      end
  end.

(** [while ((ret = avcodec_receive_packet(...)) == 0)] in
    [encode_mp3_samples]: every packet is appended to the output.  The
    result is [None] when the fuel does not reach the answer that ends the
    loop. *)
Fixpoint receive_packets (fuel : nat) (s : av_state) (output_data : list Z)
    : option (Z * list Z * av_state) :=
  let '(ret, pkt, s') := avcodec_receive_packet s in
  if ret =? 0 then
    match fuel with
    | O => None
    | S fuel' => receive_packets fuel' s' (output_data ++ pkt)
    end
  else Some (ret, output_data, s').

(** The answers of [avcodec_receive_packet] that are not logged. *)
Definition expected_response (ret : Z) : bool :=
  (ret =? AVERROR_EAGAIN) || (ret =? AVERROR_EOF).

(** What [encode_mp3_samples] leaves behind: the state and the output
    vector, both passed by reference, and the records logged. *)
Record encoded : Type := {
  enc_state : MP3EncoderState;
  enc_output : list Z;
  enc_log : list log_record;
  enc_completion : completion
}.

(** [while (state.buffer.size() >= samples_per_frame)]. *)
Fixpoint encode_loop (fuel : nat) (samples_per_frame : nat)
    (state : MP3EncoderState) (output_data : list Z) (log : list log_record)
    : outcome encoded :=
  if (length (buffer state) <? samples_per_frame)%nat then
    Ok {| enc_state := state; enc_output := output_data; enc_log := log;
          enc_completion := Returned |}
  else
  match fuel with
  | O => Diverges
  | S fuel' =>
      match encoder_ctx state, frame state with
      | Some c, Some f =>
          let* f' := deinterleave_samples (buffer state) f
                       (AVCodecContext.frame_size c) (num_channels state) in
          let state := set_frame (Some f') state in
          let '(ret, s1) :=
            avcodec_send_frame (AVCodecContext.priv_data c) (Some f') in
          let state := set_codec s1 c state in
          if ret <? 0 then
            Ok {| enc_state := state; enc_output := output_data;
                  enc_log := log;
                  enc_completion :=
                    Thrown (runtime_error "Error sending frame to MP3 encoder") |}
          else
          let state := set_buffer (drop samples_per_frame (buffer state)) state in
          if negb (av_packet_alloc s1) then
            Ok {| enc_state := state; enc_output := output_data;
                  enc_log := log;
                  enc_completion :=
                    Thrown (runtime_error "Could not allocate packet") |}
          else
          match receive_packets (pending s1) s1 output_data with
          | None => Diverges
          | Some (ret, output_data, s2) =>
              let state := set_codec s2 c state in
              let log :=
                if expected_response ret then log
                else log ++ [log_encoder_error ret] in
              encode_loop fuel' samples_per_frame state output_data log
          end
      | _, _ => Undefined
      end
  end.

(** [encode_mp3_samples]; [sample_count] is the length of [samples]. *)
Definition encode_mp3_samples (state : MP3EncoderState) (samples : list Z)
    (output_data : list Z) : outcome encoded :=
  match encoder_ctx state, frame state with
  | Some c, Some _ =>
      let state := set_buffer (buffer state ++ samples) state in
      let* product := int_mul (AVCodecContext.frame_size c) (num_channels state) in
      let samples_per_frame := to_size_t product in
      encode_loop (length (buffer state)) samples_per_frame state output_data []
  | _, _ =>
      Ok {| enc_state := state; enc_output := output_data; enc_log := [];
            enc_completion :=
              Thrown (runtime_error "MP3 encoder not initialized") |}
  end.

(** [while (avcodec_receive_packet(...) == 0) flushed_packets++]. *)
Fixpoint count_packets (fuel : nat) (s : av_state) (flushed_packets : Z)
    : option (Z * av_state) :=
  let '(ret, _, s') := avcodec_receive_packet s in
  if ret =? 0 then
    match fuel with
    | O => None
    | S fuel' => count_packets fuel' s' (flushed_packets + 1)
    end
  else Some (flushed_packets, s').

(** What [flush_mp3_encoder] leaves behind, and the [int] it returns. *)
Record flushed : Type := {
  flush_state : MP3EncoderState;
  flush_log : list log_record;
  flush_return : Z
}.

Definition flush_mp3_encoder (state : MP3EncoderState) : outcome flushed :=
  match encoder_ctx state with
  | None => Ok {| flush_state := state; flush_log := []; flush_return := 0 |}
  | Some c =>
      let '(_, s1) := avcodec_send_frame (AVCodecContext.priv_data c) None in
      let state := set_codec s1 c state in
      if negb (av_packet_alloc s1) then
        Ok {| flush_state := state; flush_log := []; flush_return := 0 |}
      else
      match count_packets (pending s1) s1 0 with
      | None => Diverges
      | Some (flushed_packets, s2) =>
          let state := set_codec s2 c state in
          let log :=
            if 0 <? flushed_packets then [log_flushed flushed_packets] else [] in
          match buffer state with
          | [] =>
              Ok {| flush_state := state; flush_log := log;
                    flush_return := flushed_packets |}
          | _ :: _ =>
              if num_channels state =? 0 then Undefined
              else
                Ok {| flush_state := state;
                      flush_log :=
                        log ++ [log_discarded
                                  (Z.of_nat (length (buffer state))
                                   / (num_channels state mod 2 ^ 64))];
                      flush_return := flushed_packets |}
          end
      end
  end.

Definition cleanup_mp3_encoder (state : MP3EncoderState) : MP3EncoderState :=
  {| encoder_ctx := None; frame := None;
     sample_rate := 0; num_channels := 0; buffer := [] |}.

(** *** The states of the encoder *)

(** The frame has a plane of at least [frame_size] samples for each of
    the [num_channels] channels. *)
Definition frame_fits (f : AVFrame.t) (frame_size num_channels : Z) : Prop :=
  (Z.to_nat num_channels <= length (AVFrame.data f))%nat /\
  forall ch plane,
    (ch < Z.to_nat num_channels)%nat ->
    AVFrame.data f !! ch = Some plane ->
    (Z.to_nat frame_size <= length plane)%nat.

(** Ready: a codec session and a frame, as a successful
    [initialize_mp3_encoder] leaves them. *)
Definition Ready (state : MP3EncoderState) : Prop :=
  exists c f,
    encoder_ctx state = Some c /\ frame state = Some f /\
    0 < AVCodecContext.frame_size c /\ 0 < num_channels state /\
    AVCodecContext.frame_size c * num_channels state <= INT_MAX /\
    frame_fits f (AVCodecContext.frame_size c) (num_channels state).

(** Uninitialized: no codec session, as in a default-constructed state
    and after [cleanup_mp3_encoder]. *)
Definition Uninitialized (state : MP3EncoderState) : Prop :=
  encoder_ctx state = None.

(** One frame's worth of interleaved samples. *)
Definition frame_samples (state : MP3EncoderState) : Z :=
  match encoder_ctx state with
  | Some c => AVCodecContext.frame_size c * num_channels state
  | None => 0
  end.

(** Two lists of planes with the same number of planes of the same
    lengths. *)
Definition same_shape (a b : list (list Z)) : Prop :=
  length a = length b /\
  forall k p, a !! k = Some p -> exists q, b !! k = Some q /\ length p = length q.

(** The records the encode loop writes: an answer of the codec that is
    neither a packet nor one of the two expected answers. *)
Definition unexpected (e : log_record) : Prop :=
  exists ret,
    e = log_encoder_error ret /\ ret <> 0 /\ expected_response ret = false.

(** The two exceptions of the encode loop. *)
Definition send_or_alloc (e : exception) : Prop :=
  e = runtime_error "Error sending frame to MP3 encoder" \/
  e = runtime_error "Could not allocate packet".

(** The state a run leaves behind, for the fixtures below. *)
Definition state_after_encode (o : outcome encoded) : MP3EncoderState :=
  match o with
  | Ok r => enc_state r
  | _ => fresh_state
  end.

Definition state_after_flush (o : outcome flushed) : MP3EncoderState :=
  match o with
  | Ok r => flush_state r
  | _ => fresh_state
  end.

End Encoder.

(** *** A codec to run the encoder on

    One frame of lookahead: the packet of a frame is ready when the next
    frame, or the end of the stream, is sent.  The answer of
    [avcodec_receive_packet] when no packet is ready before the end of the
    stream is [- toy_idle] ([AVERROR(EAGAIN)] for a codec without faults); after the end of
    the stream a codec with [toy_strict_eof] refuses further frames, as
    libavcodec does. *)

Record toy_config : Type := {
  toy_frame_size : Z;
  toy_idle : positive;
  toy_strict_eof : bool
}.

Record toy_codec : Type := {
  held : option (list Z);
  ready : list (list Z);
  draining : bool
}.

Definition EAGAIN_linux : Z := -11.
Definition EOF_tag : Z := -541478725.
Definition EINVAL_linux : Z := -22.

Definition toy_packet (f : AVFrame.t) : list Z :=
  [255; 251] ++ map (fun plane => hd 0 plane mod 256) (AVFrame.data f).

Definition toy_release (s : toy_codec) : list (list Z) :=
  match held s with
  | Some p => ready s ++ [p]
  | None => ready s
  end.

Definition toy_send_frame (cfg : toy_config) (s : toy_codec)
    (f : option AVFrame.t) : Z * toy_codec :=
  match f with
  | Some f =>
      if draining s && toy_strict_eof cfg then (EOF_tag, s)
      else (0, {| held := Some (toy_packet f); ready := toy_release s;
                  draining := draining s |})
  | None =>
      (0, {| held := None; ready := toy_release s; draining := true |})
  end.

Definition toy_receive_packet (cfg : toy_config) (s : toy_codec)
    : Z * list Z * toy_codec :=
  match ready s with
  | p :: r =>
      (0, p, {| held := held s; ready := r; draining := draining s |})
  | [] => (if draining s then EOF_tag else Z.neg (toy_idle cfg), [], s)
  end.

Definition toy_open2 (cfg : toy_config) (c : AVCodecContext.t toy_codec)
    : Z * AVCodecContext.t toy_codec :=
  if (0 <? AVCodecContext.ch_layout c) && (AVCodecContext.ch_layout c <=? 2)
     && (0 <? AVCodecContext.sample_rate c)
  then (0, {| AVCodecContext.sample_rate := AVCodecContext.sample_rate c;
              AVCodecContext.ch_layout := AVCodecContext.ch_layout c;
              AVCodecContext.sample_fmt := AVCodecContext.sample_fmt c;
              AVCodecContext.bit_rate := AVCodecContext.bit_rate c;
              AVCodecContext.frame_size := toy_frame_size cfg;
              AVCodecContext.priv_data := AVCodecContext.priv_data c |})
  else (EINVAL_linux, c).

Definition toy_get_buffer (f : AVFrame.t) : Z * AVFrame.t :=
  (0, AVFrame.set_data
        (replicate (Z.to_nat (AVFrame.ch_layout f))
                   (replicate (Z.to_nat (AVFrame.nb_samples f)) 0)) f).

#[local, refine] Instance toy_libav (cfg : toy_config) : LibAV := {|
  av_state := toy_codec;
  AVERROR_EAGAIN := EAGAIN_linux;
  AVERROR_EOF := EOF_tag;
  avcodec_find_encoder := true;
  avcodec_alloc_context3 :=
    Some {| AVCodecContext.sample_rate := 0;
            AVCodecContext.ch_layout := 0;
            AVCodecContext.sample_fmt := AV_SAMPLE_FMT_NONE;
            AVCodecContext.bit_rate := 0;
            AVCodecContext.frame_size := 0;
            AVCodecContext.priv_data :=
              {| held := None; ready := []; draining := false |} |};
  avcodec_open2 := toy_open2 cfg;
  av_frame_alloc :=
    Some {| AVFrame.nb_samples := 0; AVFrame.format := AV_SAMPLE_FMT_NONE;
            AVFrame.ch_layout := 0; AVFrame.data := [] |};
  av_frame_get_buffer := toy_get_buffer;
  av_packet_alloc := fun _ => true;
  avcodec_send_frame := toy_send_frame cfg;
  avcodec_receive_packet := toy_receive_packet cfg;
  pending := fun s => length (ready s)
|}.
Proof.
  - reflexivity.
  - reflexivity.
  - intros s pkt s'. unfold toy_receive_packet.
    destruct (ready s) as [|p r].
    + destruct (draining s); intros [=].
    + intros [= _ <-]. simpl. lia.
Defined.

(** A codec without faults and with frames of four samples per channel. *)
Definition small_codec : toy_config :=
  {| toy_frame_size := 4; toy_idle := 11; toy_strict_eof := true |}.

(** A codec that answers [AVERROR(EIO)] instead of [AVERROR(EAGAIN)] and
    accepts frames at any time. *)
Definition faulty_codec : toy_config :=
  {| toy_frame_size := 4; toy_idle := 5; toy_strict_eof := false |}.

Definition small_av : LibAV := toy_libav small_codec.
Definition faulty_av : LibAV := toy_libav faulty_codec.

(** Stereo encoders at 48 kHz on the two codecs, initialized. *)
Definition small_ready : @MP3EncoderState small_av :=
  init_state (@initialize_mp3_encoder small_av (@fresh_state small_av) 48000 2).

Definition faulty_ready : @MP3EncoderState faulty_av :=
  init_state (@initialize_mp3_encoder faulty_av (@fresh_state faulty_av) 48000 2).

(** Ten samples: one frame of eight and two left over. *)
Definition ten_samples : list Z := [1; 2; 3; 4; 5; 6; 7; 8; 9; 10].

(** The encoder after it was given the ten samples. *)
Definition small_leftover : @MP3EncoderState small_av :=
  @state_after_encode small_av
    (@encode_mp3_samples small_av small_ready ten_samples []).

(** The encoder after a flush: the codec has seen the end of the stream. *)
Definition small_flushed : @MP3EncoderState small_av :=
  @state_after_flush small_av (@flush_mp3_encoder small_av small_ready).

End mp3_encoder.

(* ================================================================= *)
(** ** States of a stream between deliveries *)

Module audio_stream_states.
Import vsdk audio_stream.

(** The context after the block [if (!ctx->first_callback_captured)] of
    [AudioCallback]: the anchor is taken when it was not taken before. *)
Definition anchored (timeInfo : PaStreamCallbackTimeInfo) (now : Z)
    (ctx : AudioStreamContext) : AudioStreamContext :=
  if negb (first_callback_captured ctx)
  then set_anchor (inputBufferAdcTime timeInfo) now ctx
  else ctx.

(** The context after [j] frames that did not complete the chunk: the
    counter has advanced, the working buffer is [wb], and the start of the
    chunk was stamped with [t0] if the first of the frames began it. *)
Definition buffered (ctx : AudioStreamContext) (t0 : Z) (j : nat)
    (wb : list Z) : AudioStreamContext :=
  set_current_sample_count (current_sample_count ctx + j)
    (set_working_buffer wb
       (if ((current_sample_count ctx =? 0) && (0 <? j))%nat
        then set_current_chunk_start_ns t0 ctx else ctx)).

(** What [j] frames of a delivery to [ctx0] keep and how they count: the
    frame counter wraps at [samples_per_chunk], one chunk is queued for
    every wrap while the queue has room, and every chunk queued carries the
    stream's [info] and two bytes for each sample. *)
Definition frames_kept (ctx0 : AudioStreamContext) (j : nat)
    (ctx : AudioStreamContext) : Prop :=
  samples_per_chunk ctx = samples_per_chunk ctx0 /\
  info ctx = info ctx0 /\
  length (working_buffer ctx) = length (working_buffer ctx0) /\
  current_sample_count ctx
    = ((current_sample_count ctx0 + j) mod samples_per_chunk ctx0)%nat /\
  exists new,
    lockfree_queue ctx = lockfree_queue ctx0 ++ new /\
    length (lockfree_queue ctx)
      = Nat.min queue_capacity
          (length (lockfree_queue ctx0)
           + (current_sample_count ctx0 + j) / samples_per_chunk ctx0)%nat /\
    Forall (fun c =>
              AudioIn.info c = info ctx0 /\
              length (AudioIn.audio_data c)
                = (2 * (samples_per_chunk ctx0
                        * Z.to_nat (num_channels (info ctx0))))%nat) new.

(** The members the frames of a delivery never write. *)
Definition untouched (ctx0 ctx : AudioStreamContext) : Prop :=
  history_buffer ctx = history_buffer ctx0 /\
  history_write_index ctx = history_write_index ctx0 /\
  history_capacity ctx = history_capacity ctx0 /\
  is_recording ctx = is_recording ctx0 /\
  stream_start_time ctx = stream_start_time ctx0 /\
  first_callback_adc_time ctx = first_callback_adc_time ctx0 /\
  first_callback_captured ctx = first_callback_captured ctx0.

(** A history of three slots that holds the chunks of 1 s, 2 s and 3 s,
    with the write index at the last slot and two chunks queued. *)
Definition history_2_of_3 : AudioStreamContext :=
  push_chunks
    (set_history (history_buffer history_1_2_3) 2
                 (make_context (info test_context) 4410 3))
    [CreateTestChunk test_context 4 4000000000;
     CreateTestChunk test_context 5 5000000000].

(** A stereo stream with chunks of four frames, one frame into a chunk. *)
Definition started_context : AudioStreamContext :=
  set_current_sample_count 1
    (make_context {| codec := "pcm16"; sample_rate_hz := 4; num_channels := 2 |}
                  4 3).

End audio_stream_states.

(* ================================================================= *)
(** * Properties *)

(** ** Loops *)

Module loops.

(** A loop whose body keeps an invariant and never fails returns a state
    that has the invariant at the final index. *)
Lemma for_loop_invariant {S : Type} (P : nat -> S -> Prop)
    (body : nat -> S -> outcome S) (n : nat) :
  forall (i : nat) (s : S),
    P i s ->
    (forall j t, (i <= j < i + n)%nat -> P j t ->
                 exists t', body j t = Ok t' /\ P (Datatypes.S j) t') ->
    exists s', for_loop n i body s = Ok s' /\ P (i + n)%nat s'.
Proof.
  induction n as [|n IH]; intros i s Hs Hbody; simpl.
  - exists s. split; [reflexivity|]. now rewrite Nat.add_0_r.
  - destruct (Hbody i s ltac:(lia) Hs) as (t & -> & Ht). simpl.
    destruct (IH (Datatypes.S i) t Ht) as (s' & Hrun & Hs').
    + intros j u Hj. apply Hbody. lia.
    + exists s'. split; [exact Hrun|].
      now replace (i + Datatypes.S n)%nat with (Datatypes.S i + n)%nat by lia.
Qed.

End loops.

(* ================================================================= *)
(** ** The hand-off queue and the history buffer *)

Module audio_stream_facts.
Import vsdk audio_stream loops.

(** *** Invariants *)

Lemma make_context_sized (i : audio_info) (spc cap : nat) :
  history_sized (make_context i spc cap).
Proof. unfold history_sized. simpl. apply length_replicate. Qed.

Lemma make_context_writable (i : audio_info) (spc cap : nat) :
  (0 < cap)%nat -> history_writable (make_context i spc cap).
Proof. unfold history_writable. simpl. lia. Qed.

Lemma push_chunk_history (c : AudioIn.audio_chunk) (ctx : AudioStreamContext) :
  history_buffer (push_chunk c ctx) = history_buffer ctx /\
  history_capacity (push_chunk c ctx) = history_capacity ctx /\
  history_write_index (push_chunk c ctx) = history_write_index ctx.
Proof. repeat split. Qed.

Lemma push_chunks_history (chunks : list AudioIn.audio_chunk) :
  forall ctx,
    history_buffer (push_chunks ctx chunks) = history_buffer ctx /\
    history_capacity (push_chunks ctx chunks) = history_capacity ctx /\
    history_write_index (push_chunks ctx chunks) = history_write_index ctx.
Proof.
  induction chunks as [|c chunks IH]; intros ctx; simpl.
  - repeat split.
  - destruct (IH (push_chunk c ctx)) as (-> & -> & ->). repeat split.
Qed.

Lemma history_record_ok (c : AudioIn.audio_chunk) (ctx : AudioStreamContext) :
  history_sized ctx -> history_writable ctx ->
  exists ctx',
    history_record c ctx = Ok ctx' /\
    lockfree_queue ctx' = lockfree_queue ctx /\
    history_sized ctx' /\ history_writable ctx'.
Proof.
  unfold history_sized, history_writable, history_record. intros Hlen Hidx.
  destruct (Nat.ltb_spec (history_write_index ctx) (length (history_buffer ctx)));
    [|lia].
  destruct (Nat.eqb_spec (history_capacity ctx) 0); [lia|].
  eexists. split; [reflexivity|]. simpl. repeat split.
  - now rewrite length_insert.
  - now apply Nat.mod_upper_bound.
Qed.

(** *** The queue *)

(** Pushing appends while there is room, and only then. *)
Lemma push_chunks_queue (chunks : list AudioIn.audio_chunk) :
  forall ctx,
    (length (lockfree_queue ctx) <= queue_capacity)%nat ->
    lockfree_queue (push_chunks ctx chunks) =
    lockfree_queue ctx
      ++ take (queue_capacity - length (lockfree_queue ctx)) chunks.
Proof.
  induction chunks as [|c chunks IH]; intros ctx Hq.
  - simpl. now rewrite take_nil, app_nil_r.
  - change (push_chunks ctx (c :: chunks))
      with (push_chunks (push_chunk c ctx) chunks).
    assert (Hpush : lockfree_queue (push_chunk c ctx) =
                    if (length (lockfree_queue ctx) <? queue_capacity)%nat
                    then lockfree_queue ctx ++ [c] else lockfree_queue ctx).
    { unfold push_chunk, spsc_queue.push.
      destruct (length (lockfree_queue ctx) <? queue_capacity)%nat; reflexivity. }
    destruct (Nat.ltb_spec (length (lockfree_queue ctx)) queue_capacity)
      as [Hlt|Hge].
    + rewrite IH; rewrite Hpush; rewrite ?length_app; simpl; [|lia].
      replace (queue_capacity - length (lockfree_queue ctx))%nat
        with (S (queue_capacity - (length (lockfree_queue ctx) + 1)))%nat by lia.
      simpl. now rewrite <- app_assoc.
    + rewrite IH; rewrite Hpush; [|lia].
      replace (queue_capacity - length (lockfree_queue ctx))%nat with 0%nat by lia.
      reflexivity.
Qed.

(** The drain pops everything that is queued, oldest first. *)
Lemma get_new_chunks_loop_drains (q : list AudioIn.audio_chunk) :
  forall fuel ctx result,
    lockfree_queue ctx = q -> (length q <= fuel)%nat ->
    history_sized ctx -> history_writable ctx ->
    exists ctx',
      get_new_chunks_loop fuel ctx result = Ok (ctx', result ++ q) /\
      lockfree_queue ctx' = [] /\
      history_sized ctx' /\ history_writable ctx'.
Proof.
  induction q as [|c q IH]; intros fuel ctx result Hq Hfuel Hs Hw.
  - exists ctx. destruct fuel; simpl; rewrite Hq; simpl;
      rewrite app_nil_r; auto.
  - destruct fuel as [|fuel]; simpl in Hfuel; [lia|].
    simpl. rewrite Hq. simpl.
    destruct (history_record_ok c (set_lockfree_queue q ctx)) as
      (ctx1 & -> & Hq1 & Hs1 & Hw1); [exact Hs|exact Hw|].
    simpl. destruct (IH fuel ctx1 (result ++ [c])) as (ctx' & Hrun & ?);
      [exact Hq1|lia|exact Hs1|exact Hw1|].
    exists ctx'. rewrite Hrun, <- app_assoc. auto.
Qed.

Lemma get_new_chunks_drains (ctx : AudioStreamContext) :
  history_sized ctx -> history_writable ctx ->
  exists ctx',
    get_new_chunks ctx = Ok (ctx', lockfree_queue ctx) /\
    lockfree_queue ctx' = [] /\
    history_sized ctx' /\ history_writable ctx'.
Proof.
  intros Hs Hw. unfold get_new_chunks.
  destruct (get_new_chunks_loop_drains (lockfree_queue ctx)
              (length (lockfree_queue ctx)) ctx []) as (ctx' & Hrun & ?);
    auto.
  exists ctx'. auto.
Qed.

(** C1. After any [N] pushes into an empty queue, a drain returns the
    first [min N 100] pushed chunks in push order (a push into a full queue
    stores nothing and reports nothing: [push_chunk] has no result), and a
    drain right after it returns no chunk. *)
Theorem drain_returns_first_pushed (ctx : AudioStreamContext)
    (chunks : list AudioIn.audio_chunk) :
  history_sized ctx -> history_writable ctx ->
  lockfree_queue ctx = [] ->
  exists ctx1 ctx2,
    get_new_chunks (push_chunks ctx chunks)
      = Ok (ctx1, take (Nat.min (length chunks) 100) chunks) /\
    get_new_chunks ctx1 = Ok (ctx2, []).
Proof.
  intros Hs Hw Hq.
  pose proof (push_chunks_history chunks ctx) as (Hb & Hc & Hi).
  pose proof (push_chunks_queue chunks ctx) as Hpq.
  rewrite Hq in Hpq. simpl in Hpq. specialize (Hpq ltac:(unfold queue_capacity; lia)).
  destruct (get_new_chunks_drains (push_chunks ctx chunks)) as
    (ctx1 & Hrun1 & Hq1 & Hs1 & Hw1).
  { unfold history_sized. now rewrite Hb, Hc. }
  { unfold history_writable. now rewrite Hc, Hi. }
  destruct (get_new_chunks_drains ctx1 Hs1 Hw1) as (ctx2 & Hrun2 & _).
  exists ctx1, ctx2. split.
  - rewrite Hrun1, Hpq. f_equal. f_equal.
    unfold queue_capacity.
    destruct (Nat.le_ge_cases (length chunks) 100) as [Hle|Hge].
    + rewrite Nat.min_l by exact Hle. now rewrite !take_ge by lia.
    + now rewrite Nat.min_r by exact Hge.
  - now rewrite Hrun2, Hq1.
Qed.

Lemma drain_returns_first_pushed_witness :
  exists ctx1 ctx2,
    get_new_chunks
      (push_chunks test_context
         [CreateTestChunk test_context 1 1000000000;
          CreateTestChunk test_context 2 2000000000;
          CreateTestChunk test_context 3 3000000000])
      = Ok (ctx1,
            take (Nat.min 3 100)
              [CreateTestChunk test_context 1 1000000000;
               CreateTestChunk test_context 2 2000000000;
               CreateTestChunk test_context 3 3000000000]) /\
    get_new_chunks ctx1 = Ok (ctx2, []).
Proof.
  apply (drain_returns_first_pushed test_context).
  - apply make_context_sized.
  - apply make_context_writable. unfold default_history_capacity. lia.
  - reflexivity.
Defined.

(** *** Queries on the history buffer *)

Lemma timestamp_scan_filter (ctx : AudioStreamContext) (startNs endNs : Z)
    (n : nat) :
  forall i acc,
    (i + n <= length (history_buffer ctx))%nat ->
    for_loop n i (timestamp_scan_step ctx startNs endNs) acc =
    Ok (acc ++ List.filter (in_query_range startNs endNs)
                           (take n (drop i (history_buffer ctx)))).
Proof.
  induction n as [|n IH]; intros i acc Hlen; simpl.
  - now rewrite app_nil_r.
  - destruct (lookup_lt_is_Some_2 (history_buffer ctx) i ltac:(lia)) as [c Hc].
    unfold timestamp_scan_step at 1. rewrite Hc.
    rewrite (drop_S _ _ _ Hc). simpl.
    unfold in_query_range at 1, occupied.
    destruct (AudioIn.start_timestamp_ns c =? 0); simpl.
    + apply IH. lia.
    + destruct ((startNs <=? AudioIn.start_timestamp_ns c)
                && (AudioIn.start_timestamp_ns c <? endNs)); simpl.
      * rewrite IH by lia. now rewrite <- app_assoc.
      * apply IH. lia.
Qed.

(** C2. [get_chunks_from_timestamp] returns the chunks of the history
    buffer whose start timestamp [t] is not the sentinel 0 and satisfies
    [startNs <= t < endNs], as values, in the order of the slots. *)
Theorem get_chunks_from_timestamp_filters (ctx : AudioStreamContext)
    (startNs endNs : Z) :
  history_sized ctx ->
  get_chunks_from_timestamp ctx startNs endNs =
  Ok (List.filter (in_query_range startNs endNs) (history_buffer ctx)).
Proof.
  unfold history_sized, get_chunks_from_timestamp. intros Hlen.
  rewrite timestamp_scan_filter by lia.
  now rewrite drop_0, <- Hlen, firstn_all.
Qed.

Lemma get_chunks_from_timestamp_filters_witness :
  get_chunks_from_timestamp history_1_2_3 1500000000 2500000000 =
  Ok (List.filter (in_query_range 1500000000 2500000000)
                  (history_buffer history_1_2_3)).
Proof.
  apply (get_chunks_from_timestamp_filters history_1_2_3).
  reflexivity.
Defined.

Example query_returns_the_2s_chunk :
  get_chunks_from_timestamp history_1_2_3 1500000000 2500000000 =
  Ok [CreateTestChunk test_context 2 2000000000].
Proof. reflexivity. Qed.

Lemma time_range_scan_fold (ctx : AudioStreamContext) (n : nat) :
  forall i acc,
    (i + n <= length (history_buffer ctx))%nat ->
    for_loop n i (time_range_step ctx) acc =
    Ok (fold_left widen
          (List.filter occupied (take n (drop i (history_buffer ctx)))) acc).
Proof.
  induction n as [|n IH]; intros i acc Hlen; simpl.
  - reflexivity.
  - destruct (lookup_lt_is_Some_2 (history_buffer ctx) i ltac:(lia)) as [c Hc].
    unfold time_range_step at 1. rewrite Hc.
    rewrite (drop_S _ _ _ Hc). simpl. unfold occupied at 1.
    destruct (AudioIn.start_timestamp_ns c =? 0); simpl; apply IH; lia.
Qed.

Lemma fold_min_push (l : list Z) :
  forall a x, fold_right Z.min (Z.min a x) l = Z.min x (fold_right Z.min a l).
Proof. induction l as [|y l IH]; intros a x; simpl; [|rewrite IH]; lia. Qed.

Lemma fold_max_push (l : list Z) :
  forall a x, fold_right Z.max (Z.max a x) l = Z.max x (fold_right Z.max a l).
Proof. induction l as [|y l IH]; intros a x; simpl; [|rewrite IH]; lia. Qed.

Lemma fold_min_le (l : list Z) (a : Z) : fold_right Z.min a l <= a.
Proof. induction l as [|y l IH]; simpl; lia. Qed.

(** The scan computes the least start and the greatest end timestamp,
    each together with the value the scan starts from. *)
Lemma widen_fold (live : list AudioIn.audio_chunk) :
  forall acc,
    fold_left widen live acc =
    (fold_right Z.min (fst acc) (map AudioIn.start_timestamp_ns live),
     fold_right Z.max (snd acc) (map AudioIn.end_timestamp_ns live)).
Proof.
  induction live as [|c live IH]; intros [o w]; simpl.
  - reflexivity.
  - rewrite IH. unfold widen. simpl.
    now rewrite fold_min_push, fold_max_push.
Qed.

(** C4, as the code has it.  With [(lo, hi)] the least start and the
    greatest end timestamp of the occupied slots ([(0, 0)] when every slot
    is empty): [get_available_time_range] returns [(0, 0)] when [lo] is
    [INT64_MAX], the value its scan starts from, and [(lo, max 0 hi)]
    otherwise. *)
Theorem available_time_range_up_to_sentinels (ctx : AudioStreamContext) :
  history_sized ctx ->
  (forall c, In c (history_buffer ctx) ->
             AudioIn.start_timestamp_ns c <= INT64_MAX) ->
  get_available_time_range ctx =
  Ok (let (lo, hi) := claimed_time_range (history_buffer ctx) in
      if lo =? INT64_MAX then (0, 0) else (lo, Z.max 0 hi)).
Proof.
  unfold history_sized, get_available_time_range, claimed_time_range.
  intros Hlen Hmax.
  rewrite time_range_scan_fold by lia.
  rewrite drop_0, <- Hlen, firstn_all, widen_fold. simpl.
  destruct (List.filter occupied (history_buffer ctx)) as [|c live] eqn:Hlive.
  - reflexivity.
  - assert (Hc : AudioIn.start_timestamp_ns c <= INT64_MAX).
    { apply Hmax. apply (proj1 (filter_In occupied c (history_buffer ctx))).
      rewrite Hlive. now left. }
    simpl.
    pose proof (fold_min_push (map AudioIn.start_timestamp_ns live)
                  INT64_MAX (AudioIn.start_timestamp_ns c)) as Hlo.
    pose proof (fold_max_push (map AudioIn.end_timestamp_ns live)
                  0 (AudioIn.end_timestamp_ns c)) as Hhi.
    pose proof (fold_min_le (map AudioIn.start_timestamp_ns live)
                  (AudioIn.start_timestamp_ns c)) as Hle.
    pose proof (fold_min_push (map AudioIn.start_timestamp_ns live)
                  (AudioIn.start_timestamp_ns c) INT64_MAX) as Hlo'.
    pose proof (fold_max_push (map AudioIn.end_timestamp_ns live)
                  (AudioIn.end_timestamp_ns c) 0) as Hhi'.
    rewrite Z.min_comm in Hlo'. rewrite Hlo in Hlo'.
    rewrite Z.max_comm in Hhi'. rewrite Hhi in Hhi'.
    rewrite Hlo', Hhi'.
    rewrite (Z.min_r INT64_MAX) by lia.
    now destruct (_ =? INT64_MAX).
Qed.

Lemma available_time_range_up_to_sentinels_witness :
  get_available_time_range history_1_2_3 =
  Ok (let (lo, hi) := claimed_time_range (history_buffer history_1_2_3) in
      if lo =? INT64_MAX then (0, 0) else (lo, Z.max 0 hi)).
Proof.
  apply (available_time_range_up_to_sentinels history_1_2_3).
  - reflexivity.
  - simpl. unfold INT64_MAX. intros c [<-|[<-|[<-|[]]]]; simpl; lia.
Defined.

(** The test [GetAvailableTimeRangeReturnsCorrectRange]. *)
Example available_range_1s_to_3100ms :
  get_available_time_range history_1_2_3 = Ok (1000000000, 3100000000).
Proof. reflexivity. Qed.

(** C4 as stated fails on two histories with one occupied slot each.  A
    chunk that starts at [INT64_MAX] is taken for no chunk at all, and the
    greatest end timestamp is never reported below 0. *)
Lemma available_time_range_differs_from_claim :
  (get_available_time_range history_far_future = Ok (0, 0) /\
   claimed_time_range (history_buffer history_far_future)
     = (INT64_MAX, INT64_MAX)) /\
  (get_available_time_range history_before_epoch = Ok (-500000000, 0) /\
   claimed_time_range (history_buffer history_before_epoch)
     = (-500000000, -400000000)).
Proof. repeat split. Qed.

(** *** The callback *)

(** C5. When the input pointer is null or recording is disabled, the
    callback returns [paContinue] and the context is the one it was given:
    no member has changed. *)
Theorem AudioCallback_skips_without_input_or_recording
    (inputBuffer : option (list Z)) (framesPerBuffer : nat)
    (timeInfo : PaStreamCallbackTimeInfo) (now : Z) (ctx : AudioStreamContext) :
  inputBuffer = None \/ is_recording ctx = false ->
  AudioCallback inputBuffer framesPerBuffer timeInfo now ctx
    = Ok (ctx, paContinue).
Proof.
  intros [->|Hoff]; [reflexivity|].
  unfold AudioCallback. destruct inputBuffer; [|reflexivity].
  now rewrite Hoff.
Qed.

Lemma AudioCallback_skips_without_input_or_recording_witness :
  AudioCallback (Some five_frames) 5
      {| inputBufferAdcTime := Double.of_Z 1000 |} 1700000000000000000
      (set_is_recording false tiny_context)
    = Ok (set_is_recording false tiny_context, paContinue).
Proof.
  apply (AudioCallback_skips_without_input_or_recording (Some five_frames)).
  right. reflexivity.
Defined.

(** The same delivery with recording enabled: the anchor is captured, two
    chunks of two frames are queued and the fifth frame waits in the working
    buffer. *)
Example AudioCallback_assembles_chunks :
  exists ctx,
    AudioCallback (Some five_frames) 5
        {| inputBufferAdcTime := Double.of_Z 1000 |} 1700000000000000000
        tiny_context
      = Ok (ctx, paContinue) /\
    first_callback_captured ctx = true /\
    stream_start_time ctx = 1700000000000000000 /\
    current_sample_count ctx = 1%nat /\
    map (fun c => (AudioIn.audio_data c, AudioIn.start_timestamp_ns c,
                   AudioIn.end_timestamp_ns c))
        (lockfree_queue ctx)
      = [([1; 0; 2; 0; 3; 0; 4; 0],
          1700000000000000000, 1700000000500000000);
         ([5; 0; 6; 0; 7; 0; 8; 0],
          1700000000500000000, 1700000001000000000)].
Proof. eexists. vm_compute. repeat split. Qed.

(** *** Timestamps *)



(** In a first delivery of 1024 frames at 44.1 kHz or 48 kHz the code is
    never off by more than that nanosecond. *)
Lemma first_delivery_within_one_ns :
  (let ctx := anchored_context 44100 1700000000000000000 in
   within_one_ns ctx 0 1024) = true /\
  (let ctx := anchored_context 48000 1700000000000000000 in
   within_one_ns ctx 0 1024) = true.
Proof. split; vm_compute; reflexivity. Qed.


End audio_stream_facts.

(* ================================================================= *)
(** ** The streaming encoder *)

Module mp3_encoder_facts.
Import libav mp3_encoder loops.

Section Facts.
Context `{LibAV}.

(** The polling loops end: the fuel [pending] is enough. *)
Lemma receive_packets_terminates (fuel : nat) :
  forall s output_data,
    (pending s <= fuel)%nat ->
    exists ret output_data' s',
      receive_packets fuel s output_data = Some (ret, output_data', s') /\
      ret <> 0.
Proof.
  induction fuel as [|fuel IH]; intros s output_data Hfuel; simpl;
    destruct (avcodec_receive_packet s) as [[ret pkt] s'] eqn:Hrecv;
    destruct (Z.eqb_spec ret 0) as [->|Hret]; eauto.
  - apply receive_packet_progress in Hrecv. lia.
  - apply receive_packet_progress in Hrecv. apply IH. lia.
Qed.

(** The count that [flush_mp3_encoder] returns only grows, and the codec
    it leaves behind has no packet ready. *)
Lemma count_packets_terminates (fuel : nat) :
  forall s n,
    (pending s <= fuel)%nat ->
    exists n' s',
      count_packets fuel s n = Some (n', s') /\ n <= n' /\
      exists s0, fst (fst (avcodec_receive_packet s0)) <> 0 /\
                 snd (avcodec_receive_packet s0) = s'.
Proof.
  induction fuel as [|fuel IH]; intros s n Hfuel; simpl;
    destruct (avcodec_receive_packet s) as [[ret pkt] s'] eqn:Hrecv;
    destruct (Z.eqb_spec ret 0) as [->|Hret].
  - apply receive_packet_progress in Hrecv. lia.
  - exists n, s'. repeat split; [lia|]. exists s. now rewrite Hrecv.
  - apply receive_packet_progress in Hrecv.
    destruct (IH s' (n + 1)) as (n' & s'' & -> & Hn & Hs); [lia|].
    exists n', s''. repeat split; [lia|assumption].
  - exists n, s'. repeat split; [lia|]. exists s. now rewrite Hrecv.
Qed.

(** *** The states of the encoder *)

Lemma fresh_state_Uninitialized : Uninitialized fresh_state.
Proof. reflexivity. Qed.

Lemma cleanup_Uninitialized (state : MP3EncoderState) :
  Uninitialized (cleanup_mp3_encoder state) /\
  buffer (cleanup_mp3_encoder state) = [].
Proof. split; reflexivity. Qed.

(** An initialization that returns leaves a codec session, a frame and an
    empty buffer. *)
Lemma initialize_returned (state : MP3EncoderState) (rate channels : Z) :
  init_completion (initialize_mp3_encoder state rate channels) = Returned ->
  exists c f,
    encoder_ctx (init_state (initialize_mp3_encoder state rate channels))
      = Some c /\
    frame (init_state (initialize_mp3_encoder state rate channels)) = Some f /\
    num_channels (init_state (initialize_mp3_encoder state rate channels))
      = channels /\
    buffer (init_state (initialize_mp3_encoder state rate channels)) = [].
Proof.
  unfold initialize_mp3_encoder.
  destruct avcodec_find_encoder; simpl; [|discriminate].
  destruct avcodec_alloc_context3 as [c0|]; [|discriminate].
  destruct (avcodec_open2 _) as [ret c].
  destruct (ret <? 0); [discriminate|].
  destruct av_frame_alloc as [f0|]; [|discriminate].
  destruct (av_frame_get_buffer _) as [ret' f].
  destruct (ret' <? 0); [discriminate|].
  intros _. exists c, f. simpl. auto.
Qed.

(** *** De-interleaving *)

Lemma deinterleave_sample_ok (interleaved : list Z) (nc ch i : nat)
    (plane : list Z) :
  (i * nc + ch < length interleaved)%nat -> (i < length plane)%nat ->
  exists plane',
    deinterleave_sample interleaved nc ch i plane = Ok plane' /\
    length plane' = length plane.
Proof.
  intros Hsrc Hdst. unfold deinterleave_sample.
  destruct (lookup_lt_is_Some_2 interleaved _ Hsrc) as [v ->].
  destruct (Nat.ltb_spec i (length plane)); [|lia].
  eexists. split; [reflexivity|]. apply length_insert.
Qed.

Lemma deinterleave_plane_ok (interleaved : list Z) (frame_size nc ch : nat)
    (planes : list (list Z)) (plane : list Z) :
  (frame_size * nc <= length interleaved)%nat -> (ch < nc)%nat ->
  planes !! ch = Some plane -> (frame_size <= length plane)%nat ->
  exists plane',
    deinterleave_plane interleaved frame_size nc ch planes
      = Ok (<[ch := plane']> planes) /\
    length plane' = length plane.
Proof.
  intros Hsrc Hch Hplane Hdst. unfold deinterleave_plane. rewrite Hplane.
  destruct (for_loop_invariant
              (fun _ p => length p = length plane)
              (deinterleave_sample interleaved nc ch) frame_size 0 plane)
    as (plane' & -> & Hlen); [reflexivity| |].
  - intros j p Hj Hp.
    destruct (deinterleave_sample_ok interleaved nc ch j p) as (p' & ? & ?);
      [nia|lia|]. exists p'. split; [assumption|congruence].
  - exists plane'. split; [reflexivity|exact Hlen].
Qed.

Lemma same_shape_refl (a : list (list Z)) : same_shape a a.
Proof. split; [reflexivity|]. intros k p Hp. exists p. auto. Qed.

Lemma same_shape_insert (a b : list (list Z)) (k : nat) (p q : list Z) :
  same_shape a b -> a !! k = Some p -> length q = length p ->
  same_shape (<[k := q]> a) b.
Proof.
  intros [Hlen Hsh] Hk Hq. split; [now rewrite length_insert|].
  intros j r. destruct (decide (k = j)) as [<-|Hne].
  - rewrite list_lookup_insert_eq by (eapply lookup_lt_Some; eassumption).
    intros [= <-]. destruct (Hsh k p Hk) as (q' & ? & ?).
    exists q'. split; [assumption|congruence].
  - rewrite list_lookup_insert_ne by exact Hne. apply Hsh.
Qed.

Lemma frame_fits_same_shape (f g : AVFrame.t) (fs nc : Z) :
  frame_fits f fs nc -> same_shape (AVFrame.data g) (AVFrame.data f) ->
  frame_fits g fs nc.
Proof.
  intros [Hn Hfit] [Hlen Hsh]. split; [lia|].
  intros ch plane Hch Hplane.
  destruct (Hsh ch plane Hplane) as (q & Hq & ->). eapply Hfit; eassumption.
Qed.

Lemma deinterleave_samples_ok (interleaved : list Z) (f : AVFrame.t)
    (frame_size num_channels : Z) :
  frame_fits f frame_size num_channels ->
  (Z.to_nat frame_size * Z.to_nat num_channels <= length interleaved)%nat ->
  exists f',
    deinterleave_samples interleaved f frame_size num_channels = Ok f' /\
    frame_fits f' frame_size num_channels.
Proof.
  intros Hfit Hsrc. unfold deinterleave_samples.
  destruct (for_loop_invariant
              (fun _ planes => same_shape planes (AVFrame.data f))
              (deinterleave_plane interleaved (Z.to_nat frame_size)
                                  (Z.to_nat num_channels))
              (Z.to_nat num_channels) 0 (AVFrame.data f))
    as (planes & -> & Hshape); [apply same_shape_refl| |].
  - intros ch planes Hch Hsh.
    destruct Hfit as [Hn Hfit].
    destruct (lookup_lt_is_Some_2 planes ch) as [plane Hplane].
    { destruct Hsh as [-> _]. lia. }
    destruct (proj2 Hsh ch plane Hplane) as (q & Hq & Hlen).
    destruct (deinterleave_plane_ok interleaved (Z.to_nat frame_size)
                (Z.to_nat num_channels) ch planes plane)
      as (plane' & -> & Hlen'); [exact Hsrc|lia|exact Hplane| |].
    + rewrite Hlen. eapply Hfit; [|exact Hq]. lia.
    + eexists. split; [reflexivity|].
      eapply same_shape_insert; eassumption.
  - simpl. eexists. split; [reflexivity|].
    eapply frame_fits_same_shape; [exact Hfit|exact Hshape].
Qed.

(** *** The encode loop *)

Lemma Ready_change (state state' : MP3EncoderState)
    (c : AVCodecContext.t av_state) (f' : AVFrame.t) (s : av_state) :
  encoder_ctx state = Some c ->
  0 < AVCodecContext.frame_size c -> 0 < num_channels state ->
  AVCodecContext.frame_size c * num_channels state <= INT_MAX ->
  frame_fits f' (AVCodecContext.frame_size c) (num_channels state) ->
  encoder_ctx state' = Some (AVCodecContext.set_priv_data s c) ->
  frame state' = Some f' ->
  num_channels state' = num_channels state ->
  Ready state' /\ frame_samples state' = frame_samples state.
Proof.
  intros Hc Hfs Hnc Hmax Hfit Hc' Hf' Hnc'. split.
  - exists (AVCodecContext.set_priv_data s c), f'. rewrite Hnc'. simpl. auto 10.
  - unfold frame_samples. now rewrite Hc, Hc', Hnc'.
Qed.

(** One turn of the encode loop with a frame the codec accepts: whatever
    answer [r] ends the polling, the loop goes on with the next frame, and
    [r] has been logged unless it is one of the two expected answers. *)
Lemma encode_loop_polls_and_continues (fuel samples_per_frame : nat)
    (state : MP3EncoderState) (output_data output_data' : list Z)
    (log : list log_record) (c : AVCodecContext.t av_state)
    (f f' : AVFrame.t) (ret r : Z) (s1 s2 : av_state) :
  encoder_ctx state = Some c -> frame state = Some f ->
  (samples_per_frame <= length (buffer state))%nat ->
  deinterleave_samples (buffer state) f (AVCodecContext.frame_size c)
                       (num_channels state) = Ok f' ->
  avcodec_send_frame (AVCodecContext.priv_data c) (Some f') = (ret, s1) ->
  0 <= ret -> av_packet_alloc s1 = true ->
  receive_packets (pending s1) s1 output_data = Some (r, output_data', s2) ->
  encode_loop (S fuel) samples_per_frame state output_data log =
  encode_loop fuel samples_per_frame
    (set_codec s2 c
       (set_buffer (drop samples_per_frame (buffer state))
          (set_codec s1 c (set_frame (Some f') state))))
    output_data'
    (if expected_response r then log else log ++ [log_encoder_error r]).
Proof.
  intros Hc Hf Hlen Hplanes Hsend Hret Halloc Hpoll. simpl.
  destruct (Nat.ltb_spec (length (buffer state)) samples_per_frame); [lia|].
  rewrite Hc, Hf, Hplanes. simpl. rewrite Hsend.
  destruct (Z.ltb_spec ret 0); [lia|].
  rewrite Halloc. simpl. now rewrite Hpoll.
Qed.

Lemma encode_loop_completes (fuel : nat) :
  forall state output_data log,
    Ready state ->
    (length (buffer state) <= fuel)%nat ->
    Forall unexpected log ->
    exists r,
      encode_loop fuel (Z.to_nat (frame_samples state)) state output_data log
        = Ok r /\
      Ready (enc_state r) /\
      frame_samples (enc_state r) = frame_samples state /\
      Forall unexpected (enc_log r) /\
      (enc_completion r = Returned ->
       Z.of_nat (length (buffer (enc_state r))) < frame_samples state) /\
      (forall e, enc_completion r = Thrown e -> send_or_alloc e) /\
      ((forall s f, 0 <= fst (avcodec_send_frame s f)) ->
       (forall s, av_packet_alloc s = true) ->
       enc_completion r = Returned).
Proof.
  induction fuel as [|fuel IH]; intros state output_data log HR Hfuel Hlog;
    pose proof HR as (c & f & Hc & Hf & Hfs & Hnc & Hmax & Hfit);
    assert (Hspf : frame_samples state
                   = AVCodecContext.frame_size c * num_channels state)
      by (unfold frame_samples; now rewrite Hc);
    simpl;
    destruct (Nat.ltb_spec (length (buffer state))
                           (Z.to_nat (frame_samples state))) as [Hlt|Hge];
    try (eexists; split; [reflexivity|]; simpl;
         repeat split; auto; try discriminate; lia).
  - nia.
  - rewrite Hc, Hf.
    destruct (deinterleave_samples_ok (buffer state) f
                (AVCodecContext.frame_size c) (num_channels state) Hfit)
      as (f' & -> & Hfit').
    { rewrite <- Z2Nat.inj_mul by lia. now rewrite <- Hspf. }
    simpl.
    destruct (avcodec_send_frame (AVCodecContext.priv_data c) (Some f'))
      as [ret s1] eqn:Hsend.
    destruct (Z.ltb_spec ret 0) as [Hneg|Hpos].
    { eexists. split; [reflexivity|]. simpl.
      destruct (Ready_change state
                  (set_codec s1 c (set_frame (Some f') state)) c f' s1)
        as [HR' Hspf']; auto.
      repeat split; auto; try discriminate.
      - intros e [= <-]. now left.
      - intros Hacc _. specialize (Hacc (AVCodecContext.priv_data c) (Some f')).
        rewrite Hsend in Hacc. simpl in Hacc. lia. }
    destruct (av_packet_alloc s1) eqn:Halloc; simpl.
    2:{ eexists. split; [reflexivity|]. simpl.
        destruct (Ready_change state
                    (set_buffer (drop (Z.to_nat (frame_samples state)) (buffer state))
                       (set_codec s1 c (set_frame (Some f') state))) c f' s1)
          as [HR' Hspf']; auto.
        repeat split; auto; try discriminate.
        - intros e [= <-]. now right.
        - intros _ Hall. specialize (Hall s1). congruence. }
    destruct (receive_packets_terminates (pending s1) s1 output_data)
      as (r & out' & s2 & -> & Hr); [lia|].
    set (state' := set_codec s2 c
                     (set_buffer (drop (Z.to_nat (frame_samples state)) (buffer state))
                        (set_codec s1 c (set_frame (Some f') state)))).
    destruct (Ready_change state state' c f' s2) as [HR' Hspf']; auto.
    destruct (IH state' out'
                (if expected_response r then log
                 else log ++ [log_encoder_error r]) HR')
      as (res & Hrun & ? & ? & ? & ? & ? & ?).
    { subst state'. simpl. rewrite length_drop. lia. }
    { destruct (expected_response r) eqn:Hexp; [exact Hlog|].
      apply Forall_app. split; [exact Hlog|].
      constructor; [|constructor]. exists r. auto. }
    exists res. rewrite <- Hspf' at 1. rewrite Hrun.
    repeat split; auto; try congruence.
    rewrite <- Hspf'. auto.
Qed.

Lemma encode_completes (state : MP3EncoderState) (samples output_data : list Z) :
  Ready state ->
  exists r,
    encode_mp3_samples state samples output_data = Ok r /\
    Ready (enc_state r) /\
    frame_samples (enc_state r) = frame_samples state /\
    Forall unexpected (enc_log r) /\
    (enc_completion r = Returned ->
     Z.of_nat (length (buffer (enc_state r))) < frame_samples state) /\
    (forall e, enc_completion r = Thrown e -> send_or_alloc e) /\
    ((forall s f, 0 <= fst (avcodec_send_frame s f)) ->
     (forall s, av_packet_alloc s = true) ->
     enc_completion r = Returned).
Proof.
  intros HR. pose proof HR as (c & f & Hc & Hf & Hfs & Hnc & Hmax & Hfit).
  unfold encode_mp3_samples. rewrite Hc, Hf. simpl.
  unfold int_mul.
  destruct (Z.leb_spec INT_MIN (AVCodecContext.frame_size c * num_channels state));
    [|unfold INT_MIN in *; nia].
  destruct (Z.leb_spec (AVCodecContext.frame_size c * num_channels state) INT_MAX);
    [|lia].
  simpl. unfold to_size_t.
  rewrite Z.mod_small by (unfold INT_MAX in *; nia).
  set (state' := set_buffer (buffer state ++ samples) state).
  assert (HR' : Ready state') by (exists c, f; simpl; auto 10).
  assert (Hprod : frame_samples state
                  = AVCodecContext.frame_size c * num_channels state)
    by (unfold frame_samples; now rewrite Hc).
  assert (Hprod' : frame_samples state'
                   = AVCodecContext.frame_size c * num_channels state)
    by (unfold frame_samples; simpl; now rewrite Hc).
  destruct (encode_loop_completes (length (buffer state ++ samples))
              state' output_data [] HR')
    as (r & Hrun & ? & Hsame & ? & Hlt & ? & ?); [reflexivity|constructor|].
  rewrite Hprod' in Hrun, Hsame, Hlt.
  exists r. rewrite Hprod. auto 10.
Qed.

(** C6. In the Ready state [encode_mp3_samples] always completes, and
    after a call that returns the buffer holds less than one frame's worth
    of samples (frame size times channel count); the state is Ready again,
    with the same frame size. *)
Theorem encode_leaves_less_than_a_frame (state : MP3EncoderState)
    (samples output_data : list Z) :
  Ready state ->
  exists r,
    encode_mp3_samples state samples output_data = Ok r /\
    (enc_completion r = Returned ->
     Z.of_nat (length (buffer (enc_state r))) < frame_samples (enc_state r) /\
     frame_samples (enc_state r) = frame_samples state /\
     Ready (enc_state r)).
Proof.
  intros HR.
  destruct (encode_completes state samples output_data HR)
    as (r & Hrun & HR' & Hspf & _ & Hlt & _).
  exists r. split; [exact Hrun|]. intros Hret.
  rewrite Hspf. auto.
Qed.



(** [flush_mp3_encoder] never touches [state.buffer]. *)
Lemma flush_keeps_buffer (state : MP3EncoderState) (r : flushed) :
  flush_mp3_encoder state = Ok r -> buffer (flush_state r) = buffer state.
Proof.
  unfold flush_mp3_encoder.
  destruct (encoder_ctx state) as [c|]; [|now intros [= <-]].
  destruct (avcodec_send_frame _ None) as [ret s1].
  destruct (av_packet_alloc s1); simpl; [|now intros [= <-]].
  destruct (count_packets _ _ _) as [[n s2]|]; [|discriminate].
  destruct (buffer state) eqn:Hb; [now intros [= <-]|].
  destruct (num_channels state =? 0); [discriminate|].
  now intros [= <-].
Qed.

(** In the Ready state a flush completes, sends the end of the stream,
    and returns a count that is not negative; the codec it leaves is the
    one a poll that found no packet left. *)
Lemma flush_drains (state : MP3EncoderState) :
  Ready state ->
  exists r c c',
    flush_mp3_encoder state = Ok r /\
    0 <= flush_return r /\
    encoder_ctx state = Some c /\
    encoder_ctx (flush_state r) = Some c' /\
    (av_packet_alloc
       (snd (avcodec_send_frame (AVCodecContext.priv_data c) None)) = true ->
     exists s0,
       fst (fst (avcodec_receive_packet s0)) <> 0 /\
       snd (avcodec_receive_packet s0) = AVCodecContext.priv_data c').
Proof.
  intros (c & f & Hc & Hf & Hfs & Hnc & Hmax & Hfit).
  unfold flush_mp3_encoder. rewrite Hc.
  destruct (avcodec_send_frame (AVCodecContext.priv_data c) None)
    as [ret s1] eqn:Hsend. simpl.
  destruct (av_packet_alloc s1) eqn:Halloc; simpl.
  2:{ eexists _, c, _. split; [reflexivity|]. simpl.
      repeat split; try reflexivity; try lia; try assumption.
      intros Ht. rewrite Hsend in Ht. simpl in Ht. congruence. }
  destruct (count_packets_terminates (pending s1) s1 0)
    as (n & s2 & -> & Hn & Hs2); [lia|].
  destruct (buffer state) eqn:Hb.
  - eexists _, c, _. split; [reflexivity|]. simpl.
    repeat split; try reflexivity; try lia; try assumption.
    intros _. exact Hs2.
  - destruct (Z.eqb_spec (num_channels state) 0); [lia|].
    eexists _, c, _. split; [reflexivity|]. simpl.
    repeat split; try reflexivity; try lia; try assumption.
    intros _. exact Hs2.
Qed.


End Facts.

(** *** Runs on the small codec *)

Section SmallCodec.
#[local] Existing Instance small_av.

Lemma small_ready_is_Ready : @Ready small_av small_ready.
Proof.
  eexists _, _. repeat split; try reflexivity; simpl; try lia.
  - unfold INT_MAX. lia.
  - intros [|[|ch]] plane Hch; simpl; intros [= <-]; simpl; lia.
Qed.

Lemma encode_leaves_less_than_a_frame_witness :
  exists r,
    @encode_mp3_samples small_av small_ready ten_samples [] = Ok r /\
    (enc_completion r = Returned ->
     Z.of_nat (length (buffer (enc_state r))) < frame_samples (enc_state r) /\
     frame_samples (enc_state r) = frame_samples small_ready /\
     Ready (enc_state r)).
Proof.
  apply (@encode_leaves_less_than_a_frame small_av small_ready ten_samples []).
  exact small_ready_is_Ready.
Defined.

(** The test [EncodeMultipleMp3Frames], on frames of four samples: of ten
    stereo samples one frame is sent and two samples stay. *)
Example encode_ten_samples :
  exists r,
    @encode_mp3_samples small_av small_ready ten_samples [] = Ok r /\
    enc_completion r = Returned /\ buffer (enc_state r) = [9; 10] /\
    enc_output r = [].
Proof. eexists. vm_compute. repeat split. Qed.



(** C9 on a state with two samples left over.  The flush returns the one
    packet the codec held back and logs that one sample per channel was
    discarded, and the two samples are in the buffer as before. *)
Theorem flush_leaves_leftover_in_buffer :
  buffer small_leftover = [9; 10] /\
  exists r,
    @flush_mp3_encoder small_av small_leftover = Ok r /\
    flush_return r = 1 /\
    flush_log r = [log_flushed 1; log_discarded 1] /\
    buffer (flush_state r) = [9; 10] /\
    buffer (@cleanup_mp3_encoder small_av (flush_state r)) = [].
Proof. split; [reflexivity|]. eexists. vm_compute. repeat split. Qed.


End SmallCodec.

(** *** Runs on the faulty codec *)

Section FaultyCodec.
#[local] Existing Instance faulty_av.



(** The faulty codec accepts every frame and answers [-5] when it has no
    packet: twenty samples make two frames, both polls are logged and the
    call returns. *)
Example encode_logs_unexpected_answers :
  (forall s f, 0 <= fst (@avcodec_send_frame faulty_av s f)) /\
  (forall s, @av_packet_alloc faulty_av s = true) /\
  exists r,
    @encode_mp3_samples faulty_av faulty_ready
        (ten_samples ++ ten_samples) [] = Ok r /\
    enc_completion r = Returned /\
    enc_log r = [log_encoder_error (-5); log_encoder_error (-5)] /\
    map severity_of (enc_log r) = [warn; warn].
Proof.
  split; [|split].
  - intros s [f|]; simpl; unfold toy_send_frame; simpl;
      rewrite ?andb_false_r; simpl; lia.
  - reflexivity.
  - eexists. vm_compute. repeat split.
Qed.

End FaultyCodec.

End mp3_encoder_facts.

(* ================================================================= *)
(** ** The history ring *)

Module history_ring_facts.
Import vsdk audio_stream audio_stream_states loops audio_stream_facts.

Lemma mod_shift_ne (w d cap : nat) :
  (w < cap)%nat -> (0 < d < cap)%nat -> ((w + d) mod cap)%nat <> w.
Proof.
  intros Hw Hd. destruct (Nat.lt_ge_cases (w + d) cap) as [Hlt|Hge].
  - rewrite Nat.mod_small by exact Hlt. lia.
  - rewrite <- (Nat.mod_unique (w + d) cap 1 (w + d - cap)); lia.
Qed.

(** Where the drain leaves the chunks in the ring. *)
Lemma get_new_chunks_loop_ring (q : list AudioIn.audio_chunk) :
  forall fuel ctx result,
    lockfree_queue ctx = q -> (length q <= fuel)%nat ->
    history_sized ctx -> history_writable ctx ->
    exists ctx',
      get_new_chunks_loop fuel ctx result = Ok (ctx', result ++ q) /\
      history_capacity ctx' = history_capacity ctx /\
      length (history_buffer ctx') = history_capacity ctx /\
      history_write_index ctx'
        = ((history_write_index ctx + length q) mod history_capacity ctx)%nat /\
      (forall i c,
          q !! i = Some c -> (length q <= i + history_capacity ctx)%nat ->
          history_buffer ctx'
            !! ((history_write_index ctx + i) mod history_capacity ctx)%nat
          = Some c) /\
      (forall k,
          (forall i, (i < length q)%nat ->
                     ((history_write_index ctx + i) mod history_capacity ctx)%nat
                     <> k) ->
          history_buffer ctx' !! k = history_buffer ctx !! k).
Proof.
  induction q as [|c q IH]; intros fuel ctx result Hq Hfuel Hs Hw;
    unfold history_sized, history_writable in *.
  - exists ctx. destruct fuel; simpl; rewrite Hq; simpl; rewrite app_nil_r;
      repeat split; auto.
    + rewrite Nat.add_0_r. now rewrite Nat.mod_small.
    + intros i c [=].
    + rewrite Nat.add_0_r. now rewrite Nat.mod_small.
    + intros i c [=].
  - destruct fuel as [|fuel]; simpl in Hfuel; [lia|].
    simpl. rewrite Hq. simpl. unfold history_record. simpl.
    destruct (Nat.ltb_spec (history_write_index ctx)
                           (length (history_buffer ctx))); [|lia].
    destruct (Nat.eqb_spec (history_capacity ctx) 0); [lia|]. simpl.
    set (ctx1 := set_history _ _ _).
    destruct (IH fuel ctx1 (result ++ [c])) as
      (ctx' & Hrun & Hcap & Hlen & Hidx & Hput & Hkeep).
    { reflexivity. } { lia. }
    { subst ctx1. simpl. now rewrite length_insert. }
    { subst ctx1. simpl. now apply Nat.mod_upper_bound. }
    subst ctx1. simpl in *.
    assert (Hshift : forall j,
               (((history_write_index ctx + 1) mod history_capacity ctx + j)
                  mod history_capacity ctx)%nat
               = ((history_write_index ctx + S j) mod history_capacity ctx)%nat).
    { intros j. rewrite Nat.Div0.add_mod_idemp_l. f_equal. lia. }
    exists ctx'. rewrite Hrun, <- app_assoc. simpl.
    split; [reflexivity|]. split; [exact Hcap|]. split; [exact Hlen|].
    split; [now rewrite Hidx, Hshift|]. split.
    + intros [|i] c' Hc' Hlast; simpl in Hc'.
      * injection Hc' as <-.
        rewrite Nat.add_0_r, Nat.mod_small by exact Hw.
        rewrite Hkeep.
        -- apply list_lookup_insert_eq. lia.
        -- intros j Hj. rewrite Hshift. apply mod_shift_ne; lia.
      * rewrite <- Hshift. apply Hput; [exact Hc'|lia].
    + intros k Hk. rewrite Hkeep.
      * apply list_lookup_insert_ne.
        specialize (Hk 0%nat ltac:(lia)).
        rewrite Nat.add_0_r, Nat.mod_small in Hk by exact Hw. exact Hk.
      * intros j Hj. rewrite Hshift. apply Hk. lia.
Qed.


(** X1.  [get_new_chunks] on a history with a slot for every index: it
    returns what was queued, the write index advances by the number of
    chunks modulo the capacity, each of the last [history_capacity] chunks
    is in the slot the index had when it was popped, and a slot the index
    did not pass holds what it held. *)
Theorem drain_places_chunks_in_ring (ctx : AudioStreamContext) :
  history_sized ctx -> history_writable ctx ->
  let q := lockfree_queue ctx in
  let w := history_write_index ctx in
  let cap := history_capacity ctx in
  exists ctx',
    get_new_chunks ctx = Ok (ctx', q) /\
    length (history_buffer ctx') = cap /\
    history_write_index ctx' = ((w + length q) mod cap)%nat /\
    (forall i c,
        q !! i = Some c -> (length q <= i + cap)%nat ->
        history_buffer ctx' !! ((w + i) mod cap)%nat = Some c) /\
    (forall k,
        (forall i, (i < length q)%nat -> ((w + i) mod cap)%nat <> k) ->
        history_buffer ctx' !! k = history_buffer ctx !! k).
Proof.
  intros Hs Hw q w cap.
  destruct (get_new_chunks_loop_ring q (length q) ctx [] eq_refl (le_n _) Hs Hw)
    as (ctx' & Hrun & _ & Hlen & Hidx & Hput & Hkeep).
  exists ctx'. unfold get_new_chunks. fold q. rewrite Hrun. auto.
Qed.

Lemma drain_places_chunks_in_ring_witness :
  exists ctx',
    get_new_chunks history_2_of_3 = Ok (ctx', lockfree_queue history_2_of_3) /\
    length (history_buffer ctx') = 3%nat /\
    history_write_index ctx' = 1%nat /\
    history_buffer ctx' !! 2%nat = Some (CreateTestChunk test_context 4 4000000000) /\
    history_buffer ctx' !! 0%nat = Some (CreateTestChunk test_context 5 5000000000) /\
    history_buffer ctx' !! 1%nat = Some (CreateTestChunk test_context 2 2000000000).
Proof.
  destruct (drain_places_chunks_in_ring history_2_of_3)
    as (ctx' & Hrun & Hlen & Hidx & Hput & Hkeep).
  { reflexivity. } { unfold history_writable. simpl. lia. }
  exists ctx'. split; [exact Hrun|]. split; [exact Hlen|].
  split; [exact Hidx|]. split; [|split].
  - apply (Hput 0%nat); [reflexivity|simpl; lia].
  - apply (Hput 1%nat); [reflexivity|simpl; lia].
  - rewrite Hkeep; [reflexivity|].
    intros [|[|i]] Hi; simpl in *; [discriminate|discriminate|lia].
Defined.

(** X2.  On a new stream, chunks pushed (no more than the queue and the
    history hold), drained once and then queried by timestamp come back as
    the pushed chunks whose start timestamp is not 0 and lies in
    [startNs, endNs), in the order they were pushed. *)
Theorem query_after_first_drain (i : audio_info) (spc cap : nat)
    (chunks : list AudioIn.audio_chunk) (startNs endNs : Z) :
  (length chunks <= cap)%nat -> (length chunks <= queue_capacity)%nat ->
  exists ctx',
    get_new_chunks (push_chunks (make_context i spc cap) chunks)
      = Ok (ctx', chunks) /\
    get_chunks_from_timestamp ctx' startNs endNs
      = Ok (List.filter (in_query_range startNs endNs) chunks).
Proof.
  intros Hcap Hq.
  destruct (Nat.eq_dec cap 0%nat) as [->|Hpos].
  { destruct chunks; [|simpl in Hcap; lia]. exists (make_context i spc 0).
    split; reflexivity. }
  set (ctx := push_chunks (make_context i spc cap) chunks).
  destruct (push_chunks_history chunks (make_context i spc cap))
    as (Hh & Hc & Hi). fold ctx in Hh, Hc, Hi. simpl in Hh, Hc, Hi.
  assert (Hqueue : lockfree_queue ctx = chunks).
  { unfold ctx. rewrite push_chunks_queue by (simpl; lia). simpl.
    apply firstn_all2. unfold queue_capacity in Hq. simpl. lia. }
  destruct (get_new_chunks_loop_ring chunks (length chunks) ctx []
              Hqueue (le_n _))
    as (ctx' & Hrun & Hcap' & Hlen & _ & Hput & Hkeep).
  { unfold history_sized. rewrite Hh, Hc. apply length_replicate. }
  { unfold history_writable. rewrite Hi, Hc. lia. }
  rewrite Hc, Hi in *. simpl in Hput, Hkeep.
  exists ctx'. split.
  { unfold get_new_chunks. rewrite Hqueue. exact Hrun. }
  assert (Hhist : history_buffer ctx'
                  = chunks ++ replicate (cap - length chunks) AudioIn.empty_chunk).
  { apply list_eq. intros k.
    destruct (Nat.lt_ge_cases k (length chunks)) as [Hk|Hk].
    - destruct (lookup_lt_is_Some_2 chunks k Hk) as (c & Hc').
      rewrite lookup_app_l, Hc' by exact Hk.
      rewrite <- (Nat.mod_small k cap) by lia. apply Hput; [exact Hc'|lia].
    - rewrite lookup_app_r by exact Hk. rewrite Hkeep, Hh.
      + destruct (Nat.lt_ge_cases k cap) as [Hkc|Hkc].
        * rewrite !lookup_replicate_2 by lia. reflexivity.
        * rewrite !lookup_ge_None_2 by (rewrite length_replicate; lia).
          reflexivity.
      + intros j Hj. rewrite Nat.mod_small by lia. lia. }
  unfold get_chunks_from_timestamp. rewrite Hcap'.
  rewrite timestamp_scan_filter by lia. simpl. f_equal.
  rewrite drop_0, firstn_all2 by lia. rewrite Hhist, List.filter_app.
  rewrite <- (app_nil_r (List.filter _ chunks)) at 2. f_equal.
  generalize (cap - length chunks)%nat. intros m.
  induction m as [|m IH]; [reflexivity|exact IH].
Qed.

Lemma query_after_first_drain_witness :
  exists ctx',
    get_new_chunks
      (push_chunks (make_context (info test_context) 4410 3)
         [CreateTestChunk test_context 1 1000000000;
          CreateTestChunk test_context 2 2000000000])
      = Ok (ctx', [CreateTestChunk test_context 1 1000000000;
                   CreateTestChunk test_context 2 2000000000]) /\
    get_chunks_from_timestamp ctx' 1500000000 2500000000
      = Ok (List.filter (in_query_range 1500000000 2500000000)
              [CreateTestChunk test_context 1 1000000000;
               CreateTestChunk test_context 2 2000000000]).
Proof.
  apply (query_after_first_drain (info test_context) 4410 3
           [CreateTestChunk test_context 1 1000000000;
            CreateTestChunk test_context 2 2000000000]);
    simpl; unfold queue_capacity; lia.
Defined.

(** X3.  A stream made with [history_capacity = 0] cannot drain a chunk:
    [history_buffer[0]] does not exist and the index is taken modulo 0. *)
Theorem drain_without_history_is_undefined (i : audio_info) (spc : nat)
    (chunks : list AudioIn.audio_chunk) :
  chunks <> [] ->
  get_new_chunks (push_chunks (make_context i spc 0) chunks) = Undefined.
Proof.
  intros Hne.
  set (ctx := push_chunks (make_context i spc 0) chunks).
  destruct (push_chunks_history chunks (make_context i spc 0))
    as (Hh & Hc & Hi). fold ctx in Hh, Hc, Hi. simpl in Hh, Hc, Hi.
  assert (Hqueue : lockfree_queue ctx
                   = take queue_capacity chunks).
  { unfold ctx. rewrite push_chunks_queue by (simpl; lia). reflexivity. }
  unfold get_new_chunks. rewrite Hqueue.
  destruct chunks as [|c rest]; [contradiction|].
  unfold queue_capacity. simpl. rewrite Hqueue. simpl.
  unfold history_record. simpl. rewrite Hh, Hi. reflexivity.
Qed.

Lemma drain_without_history_is_undefined_witness :
  [CreateTestChunk test_context 1 1000000000] <> [] /\
  get_new_chunks
    (push_chunks (make_context (info test_context) 4410 0)
                 [CreateTestChunk test_context 1 1000000000]) = Undefined.
Proof.
  split; [discriminate|].
  apply (drain_without_history_is_undefined (info test_context) 4410
           [CreateTestChunk test_context 1 1000000000]).
  discriminate.
Defined.


End history_ring_facts.

(* ================================================================= *)
(** ** The frames of a delivery *)

Module audio_callback_facts.
Import vsdk audio_stream audio_stream_states loops audio_stream_facts.

(** What a loop that completes has kept. *)
Lemma for_loop_preserves {S : Type} (P : nat -> S -> Prop)
    (body : nat -> S -> outcome S) (n : nat) :
  forall (i : nat) (s s' : S),
    P i s ->
    (forall j t t', (i <= j < i + n)%nat -> P j t -> body j t = Ok t' ->
                    P (Datatypes.S j) t') ->
    for_loop n i body s = Ok s' -> P (i + n)%nat s'.
Proof.
  induction n as [|n IH]; intros i s s' Hs Hbody; simpl.
  - intros [= <-]. now rewrite Nat.add_0_r.
  - destruct (body i s) as [t| |] eqn:Ht; simpl; try discriminate.
    intros Hrun.
    replace (i + Datatypes.S n)%nat with (Datatypes.S i + n)%nat by lia.
    apply (IH (Datatypes.S i) t s').
    + apply (Hbody i s t); [lia|exact Hs|exact Ht].
    + intros j u u' Hj. apply Hbody. lia.
    + exact Hrun.
Qed.

(** The frame counter after one more frame. *)
Lemma count_next (c0 j spc : nat) :
  (0 < spc)%nat ->
  let count := ((c0 + j) mod spc)%nat in
  ((c0 + Datatypes.S j) mod spc)%nat
    = (if (Datatypes.S count =? spc)%nat then 0 else Datatypes.S count)%nat /\
  ((c0 + Datatypes.S j) / spc)%nat
    = (if (Datatypes.S count =? spc)%nat
       then Datatypes.S ((c0 + j) / spc) else ((c0 + j) / spc))%nat.
Proof.
  intros Hspc count.
  pose proof (Nat.div_mod_eq (c0 + j) spc) as Hdm.
  pose proof (Nat.mod_upper_bound (c0 + j) spc ltac:(lia)) as Hlt.
  fold count in Hdm, Hlt.
  destruct (Nat.eqb_spec (Datatypes.S count) spc) as [Heq|Hne].
  - split.
    + symmetry. apply (Nat.mod_unique _ _ (Datatypes.S ((c0 + j) / spc))); lia.
    + symmetry. apply (Nat.div_unique _ _ _ 0%nat); lia.
  - split.
    + symmetry. apply (Nat.mod_unique _ _ ((c0 + j) / spc)); lia.
    + symmetry. apply (Nat.div_unique _ _ _ (Datatypes.S count)); lia.
Qed.

(** The copy of a frame keeps the size of the working buffer. *)
Lemma copy_channels_length (input : list Z) (nc i buffer_idx : nat)
    (wb wb' : list Z) :
  for_loop nc 0 (copy_channel input nc i buffer_idx) wb = Ok wb' ->
  length wb' = length wb.
Proof.
  intros Hrun.
  apply (for_loop_preserves (fun _ w => length w = length wb)
           (copy_channel input nc i buffer_idx) nc 0%nat wb wb');
    [reflexivity| |exact Hrun].
  intros ch w w' _ Hw. unfold copy_channel.
  destruct (input !! _); [|discriminate].
  destruct (_ <? _)%nat; [|discriminate].
  intros [= <-]. now rewrite length_insert.
Qed.

(** The bytes of a chunk: two for every sample. *)
Lemma copy_samples_length (wb : list Z) (n : nat) (data data' : list Z) :
  for_loop n 0 (copy_sample wb) data = Ok data' ->
  length data' = length data.
Proof.
  intros Hrun.
  apply (for_loop_preserves (fun _ d => length d = length data)
           (copy_sample wb) n 0%nat data data'); [reflexivity| |exact Hrun].
  intros j d d' _ Hd. unfold copy_sample.
  destruct (wb !! j); [|discriminate]. simpl.
  intros [= <-]. now rewrite !length_insert.
Qed.

Lemma make_chunk_shape (ctx : AudioStreamContext) (c : AudioIn.audio_chunk) :
  make_chunk ctx = Ok c ->
  AudioIn.info c = info ctx /\
  AudioIn.start_timestamp_ns c = current_chunk_start_ns ctx /\
  length (AudioIn.audio_data c)
    = (2 * (samples_per_chunk ctx * Z.to_nat (num_channels (info ctx))))%nat.
Proof.
  unfold make_chunk.
  destruct (for_loop _ 0 (copy_sample _) _) as [data| |] eqn:Hdata;
    simpl; try discriminate.
  destruct (Chrono.duration_cast_ns _) as [d| |]; simpl; try discriminate.
  destruct (int64_add _ _) as [e| |]; simpl; try discriminate.
  intros [= <-]. simpl. repeat split.
  rewrite (copy_samples_length _ _ _ _ Hdata), length_replicate. lia.
Qed.

Lemma callback_frame_kept (input : list Z) (secs : Double.double)
    (ctx0 : AudioStreamContext) (j : nat) (ctx ctx' : AudioStreamContext) :
  (current_sample_count ctx0 < samples_per_chunk ctx0)%nat ->
  (length (lockfree_queue ctx0) <= queue_capacity)%nat ->
  frames_kept ctx0 j ctx ->
  callback_frame input secs j ctx = Ok ctx' ->
  frames_kept ctx0 (Datatypes.S j) ctx'.
Proof.
  intros Hc0 Hq0
    (Hspc & Hinfo & Hwb & Hcnt & new & Hq & Hqlen & Hnew).
  unfold callback_frame.
  match goal with
  | |- context [Cxx.bind ?m _] => remember m as ctx1 eqn:Hcx
  end.
  destruct ctx1 as [cx| |]; cbn -[Nat.eqb]; try discriminate.
  assert (Hsame : exists t, cx = set_current_chunk_start_ns t ctx).
  { destruct (current_sample_count ctx =? 0)%nat.
    - destruct (calculate_sample_timestamp _ _ _) as [t| |]; simpl in Hcx;
        try discriminate. injection Hcx as ->. now exists t.
    - injection Hcx as ->. exists (current_chunk_start_ns ctx).
      now destruct ctx. }
  destruct Hsame as (t & ->). cbn -[Nat.eqb].
  destruct (num_channels (info ctx) <? 0); [discriminate|].
  destruct (for_loop _ 0 (copy_channel _ _ _ _) _) as [wb| |] eqn:Hcopy;
    cbn -[Nat.eqb]; try discriminate.
  apply copy_channels_length in Hcopy. simpl in Hcopy.
  pose proof (count_next (current_sample_count ctx0) j
                (samples_per_chunk ctx0) ltac:(lia)) as [Hmod Hdiv].
  cbv zeta in Hmod, Hdiv. rewrite <- Hcnt, <- Hspc in Hmod, Hdiv.
  destruct (Nat.eqb_spec (Datatypes.S (current_sample_count ctx))
                         (samples_per_chunk ctx)) as [Hfull|Hpart].
  - destruct (make_chunk _) as [c| |] eqn:Hmk; simpl; try discriminate.
    apply make_chunk_shape in Hmk. cbn -[Nat.mul] in Hmk.
    destruct Hmk as (Hci & _ & Hclen).
    intros [= <-]. unfold frames_kept, push_chunk, spsc_queue.push.
    cbn -[Nat.min Nat.ltb Nat.eqb Nat.mul Nat.div Nat.modulo queue_capacity].
    rewrite Hspc in *. rewrite Hmod, Hdiv.
    repeat (split; [congruence|]).
    destruct (Nat.ltb_spec (length (lockfree_queue ctx)) queue_capacity).
    + exists (new ++ [c]). cbn [fst]. rewrite Hq, app_assoc.
      split; [reflexivity|]. split.
      * rewrite <- Hq, length_app. cbn [length]. lia.
      * apply Forall_app. split; [exact Hnew|]. constructor; [|constructor].
        rewrite Hci, Hclen, Hinfo. auto.
    + exists new. cbn [fst]. split; [exact Hq|]. split; [lia|exact Hnew].
  - intros [= <-]. unfold frames_kept.
    cbn -[Nat.min Nat.ltb Nat.eqb Nat.mul Nat.div Nat.modulo queue_capacity].
    rewrite Hspc in *. rewrite Hmod, Hdiv.
    repeat (split; [congruence|]).
    exists new. split; [exact Hq|]. split; [exact Hqlen|exact Hnew].
Qed.


(** A loop of [n + 1] iterations is a loop of [n] and one more. *)
Lemma for_loop_snoc {S : Type} (body : nat -> S -> outcome S) (n : nat) :
  forall (i : nat) (s : S),
    for_loop (Datatypes.S n) i body s
    = let* t := for_loop n i body s in body (i + n)%nat t.
Proof.
  induction n as [|n IH]; intros i s.
  - simpl. rewrite Nat.add_0_r. now destruct (body i s).
  - change (for_loop (Datatypes.S (Datatypes.S n)) i body s)
      with (let* t := body i s in for_loop (Datatypes.S n) (Datatypes.S i) body t).
    change (for_loop (Datatypes.S n) i body s)
      with (let* t := body i s in for_loop n (Datatypes.S i) body t).
    destruct (body i s) as [t| |]; cbn [Cxx.bind]; [|reflexivity..].
    rewrite (IH (Datatypes.S i) t), Nat.add_succ_r. reflexivity.
Qed.

(** The copy of frame [i] of the input to frame [buffer_idx] of the
    working buffer. *)
Lemma copy_channels_layout (input : list Z) (nc i buffer_idx : nat)
    (wb : list Z) :
  (i * nc + nc <= length input)%nat ->
  (buffer_idx * nc + nc <= length wb)%nat ->
  exists wb',
    for_loop nc 0 (copy_channel input nc i buffer_idx) wb = Ok wb' /\
    length wb' = length wb /\
    forall k,
      wb' !! k =
      if ((buffer_idx * nc <=? k) && (k <? buffer_idx * nc + nc))%nat
      then input !! (i * nc + (k - buffer_idx * nc))%nat
      else wb !! k.
Proof.
  intros Hin Hwb.
  destruct (for_loop_invariant
              (fun ch w =>
                 length w = length wb /\
                 forall k,
                   w !! k =
                   if ((buffer_idx * nc <=? k) && (k <? buffer_idx * nc + ch))%nat
                   then input !! (i * nc + (k - buffer_idx * nc))%nat
                   else wb !! k)
              (copy_channel input nc i buffer_idx) nc 0%nat wb)
    as (wb' & Hrun & Hlen & Hlay).
  - split; [reflexivity|]. intros k.
    destruct (Nat.leb_spec (buffer_idx * nc) k);
      destruct (Nat.ltb_spec k (buffer_idx * nc + 0)); simpl; auto; lia.
  - intros ch w Hch (Hlen & Hlay). unfold copy_channel.
    destruct (lookup_lt_is_Some_2 input (i * nc + ch)%nat ltac:(lia))
      as (v & Hv).
    rewrite Hv.
    destruct (Nat.ltb_spec (buffer_idx * nc + ch) (length w)); [|lia].
    eexists. split; [reflexivity|]. split; [now rewrite length_insert|].
    intros k. destruct (Nat.eq_dec k (buffer_idx * nc + ch)%nat) as [->|Hk].
    + rewrite list_lookup_insert_eq by lia.
      destruct (Nat.leb_spec (buffer_idx * nc) (buffer_idx * nc + ch)); [|lia].
      destruct (Nat.ltb_spec (buffer_idx * nc + ch)%nat
                             (buffer_idx * nc + Datatypes.S ch)%nat); [|lia].
      simpl. rewrite <- Hv. f_equal. lia.
    + rewrite list_lookup_insert_ne by lia. rewrite Hlay.
      destruct (Nat.leb_spec (buffer_idx * nc) k);
        destruct (Nat.ltb_spec k (buffer_idx * nc + ch));
        destruct (Nat.ltb_spec k (buffer_idx * nc + Datatypes.S ch));
        simpl; auto; lia.
  - exists wb'. auto.
Qed.


(** One frame of a delivery, when both buffers have room for it. *)
Lemma callback_frame_copies (input : list Z) (secs : Double.double)
    (i : nat) (ctx : AudioStreamContext) (t : Z) :
  let c := current_sample_count ctx in
  let nc := Z.to_nat (num_channels (info ctx)) in
  0 <= num_channels (info ctx) ->
  (c < samples_per_chunk ctx)%nat ->
  (i * nc + nc <= length input)%nat ->
  (samples_per_chunk ctx * nc <= length (working_buffer ctx))%nat ->
  (c = 0%nat -> calculate_sample_timestamp ctx secs (Z.of_nat i) = Ok t) ->
  exists wb',
    length wb' = length (working_buffer ctx) /\
    (forall k,
        wb' !! k =
        if ((c * nc <=? k) && (k <? c * nc + nc))%nat
        then input !! (i * nc + (k - c * nc))%nat
        else working_buffer ctx !! k) /\
    callback_frame input secs i ctx =
      let ctx1 :=
        set_current_sample_count (Datatypes.S c)
          (set_working_buffer wb'
             (if (c =? 0)%nat then set_current_chunk_start_ns t ctx else ctx)) in
      if (Datatypes.S c =? samples_per_chunk ctx)%nat
      then let* chunk := make_chunk ctx1 in
           Ok (set_current_sample_count 0 (push_chunk chunk ctx1))
      else Ok ctx1.
Proof.
  intros c nc Hnc Hc Hin Hwb Hts.
  assert (Hroom : (c * nc + nc <= length (working_buffer ctx))%nat) by nia.
  destruct (copy_channels_layout input nc i c (working_buffer ctx) Hin Hroom)
    as (wb' & Hcopy & Hlen & Hlay).
  exists wb'. split; [exact Hlen|]. split; [exact Hlay|].
  unfold callback_frame. fold c.
  destruct (Nat.eqb_spec c 0) as [Hz|Hz].
  - rewrite (Hts Hz). cbn [Cxx.bind].
    cbn [info set_current_chunk_start_ns working_buffer].
    destruct (Z.ltb_spec (num_channels (info ctx)) 0); [lia|].
    fold nc. rewrite Hcopy. reflexivity.
  - cbn [Cxx.bind].
    destruct (Z.ltb_spec (num_channels (info ctx)) 0); [lia|].
    fold nc. rewrite Hcopy. reflexivity.
Qed.

Lemma calculate_sample_timestamp_reads (a b : AudioStreamContext)
    (secs : Double.double) (i : Z) :
  info a = info b -> stream_start_time a = stream_start_time b ->
  calculate_sample_timestamp a secs i = calculate_sample_timestamp b secs i.
Proof. unfold calculate_sample_timestamp. now intros -> ->. Qed.

Lemma buffered_frames (input : list Z) (secs : Double.double)
    (ctx : AudioStreamContext) (t0 : Z) (n : nat) :
  let c0 := current_sample_count ctx in
  let nc := Z.to_nat (num_channels (info ctx)) in
  0 <= num_channels (info ctx) ->
  (c0 + n < samples_per_chunk ctx)%nat ->
  (n * nc <= length input)%nat ->
  (samples_per_chunk ctx * nc <= length (working_buffer ctx))%nat ->
  (c0 = 0%nat -> calculate_sample_timestamp ctx secs 0 = Ok t0) ->
  exists wb',
    for_loop n 0 (callback_frame input secs) ctx = Ok (buffered ctx t0 n wb') /\
    length wb' = length (working_buffer ctx) /\
    forall k,
      wb' !! k =
      if ((c0 * nc <=? k) && (k <? (c0 + n) * nc))%nat
      then input !! (k - c0 * nc)%nat
      else working_buffer ctx !! k.
Proof.
  intros c0 nc Hnc Hc Hin Hwb Hts.
  destruct (for_loop_invariant
              (fun j cx =>
                 exists wbj,
                   cx = (if (j =? 0)%nat then ctx else buffered ctx t0 j wbj) /\
                   length wbj = length (working_buffer ctx) /\
                   forall k,
                     wbj !! k =
                     if ((c0 * nc <=? k) && (k <? (c0 + j) * nc))%nat
                     then input !! (k - c0 * nc)%nat
                     else working_buffer ctx !! k)
              (callback_frame input secs) n 0%nat ctx)
    as (ctx' & Hrun & wb' & Hctx' & Hlen & Hlay).
  - exists (working_buffer ctx). split; [reflexivity|]. split; [reflexivity|].
    intros k. rewrite Nat.add_0_r.
    destruct (Nat.leb_spec (c0 * nc) k);
      destruct (Nat.ltb_spec k (c0 * nc)); simpl; auto; lia.
  - intros j cx Hj (wbj & -> & Hlen & Hlay).
    assert (Hcx : exists cx,
               cx = (if (j =? 0)%nat then ctx else buffered ctx t0 j wbj) /\
               current_sample_count cx = (c0 + j)%nat /\
               info cx = info ctx /\
               stream_start_time cx = stream_start_time ctx /\
               samples_per_chunk cx = samples_per_chunk ctx /\
               (forall k, working_buffer cx !! k = wbj !! k) /\
               length (working_buffer cx) = length (working_buffer ctx) /\
               forall w c,
                 (c =? 0)%nat = (current_sample_count cx =? 0)%nat ->
                 set_current_sample_count (Datatypes.S (c0 + j))
                   (set_working_buffer w
                      (if (c =? 0)%nat
                       then set_current_chunk_start_ns t0 cx else cx))
                 = buffered ctx t0 (Datatypes.S j) w).
    { eexists. split; [reflexivity|].
      destruct (Nat.eqb_spec j 0) as [->|Hj0].
      - rewrite Nat.add_0_r. repeat split.
        + intros k. rewrite Hlay, Nat.add_0_r.
          destruct (Nat.leb_spec (c0 * nc) k);
            destruct (Nat.ltb_spec k (c0 * nc)); simpl; auto; lia.
        + intros w c ->. unfold buffered. fold c0.
          rewrite Nat.add_1_r. cbn [Nat.ltb Nat.leb].
          rewrite andb_true_r. now destruct (c0 =? 0)%nat.
      - unfold buffered. fold c0. repeat split.
        + now destruct ((c0 =? 0) && (0 <? j))%nat.
        + now destruct ((c0 =? 0) && (0 <? j))%nat.
        + now destruct ((c0 =? 0) && (0 <? j))%nat.
        + exact Hlen.
        + intros w c Hcz. cbn [current_sample_count set_current_sample_count] in Hcz.
          rewrite Hcz, Nat.add_succ_r.
          destruct (Nat.eqb_spec (c0 + j) 0); [lia|].
          destruct j as [|j']; [congruence|].
          destruct (Nat.eqb_spec c0 0); reflexivity. }
    destruct Hcx as (cx & <- & Hcnt & Hinfo & Hst & Hspc & Hwbk & Hwbl & Hnext).
    destruct (callback_frame_copies input secs j cx t0)
      as (w & Hwlen & Hwlay & Hframe).
    + now rewrite Hinfo.
    + rewrite Hcnt, Hspc. lia.
    + rewrite Hinfo. fold nc. nia.
    + rewrite Hinfo, Hspc, Hwbl. exact Hwb.
    + rewrite Hcnt. intros Hz.
      rewrite (calculate_sample_timestamp_reads cx ctx) by assumption.
      replace j with 0%nat by lia. apply Hts. lia.
    + rewrite Hframe. cbv zeta. rewrite Hcnt, Hspc.
      destruct (Nat.eqb_spec (Datatypes.S (c0 + j)) (samples_per_chunk ctx));
        [lia|].
      exists (buffered ctx t0 (Datatypes.S j) w). split.
      * f_equal. apply Hnext. now rewrite Hcnt.
      * exists w. split; [reflexivity|]. split; [congruence|].
        intros k. rewrite Hwlay, Hcnt, Hinfo, Hwbk, Hlay. fold nc.
        destruct (Nat.leb_spec ((c0 + j) * nc) k);
          destruct (Nat.ltb_spec k ((c0 + j) * nc + nc));
          destruct (Nat.leb_spec (c0 * nc) k);
          destruct (Nat.ltb_spec k ((c0 + j) * nc));
          destruct (Nat.ltb_spec k ((c0 + Datatypes.S j) * nc));
          cbn [andb]; try reflexivity; try nia.
        f_equal. nia.
  - cbn [Nat.add] in Hctx', Hlay.
    exists wb'. split; [|split; [exact Hlen|exact Hlay]].
    rewrite Hrun. f_equal. rewrite Hctx'.
    destruct (Nat.eqb_spec n 0) as [->|Hn0]; [|reflexivity].
    unfold buffered. rewrite andb_false_r, Nat.add_0_r.
    assert (Hsame : wb' = working_buffer ctx).
    { apply list_eq. intros k. rewrite Hlay, Nat.add_0_r.
      destruct (Nat.leb_spec (c0 * nc) k);
        destruct (Nat.ltb_spec k (c0 * nc)); simpl; auto; lia. }
    rewrite Hsame. now destruct ctx.
Qed.


Lemma int16_bytes_flat_length (l : list Z) :
  length (flat_map int16_bytes l) = (2 * length l)%nat.
Proof. induction l as [|x l IH]; simpl; [reflexivity|rewrite IH; lia]. Qed.

(** The loop that fills the chunk: the bytes of the first [n] samples of
    the working buffer, low byte first. *)
Lemma copy_samples_bytes (wb : list Z) (n : nat) :
  (n <= length wb)%nat ->
  for_loop n 0 (copy_sample wb) (replicate (n * 2) 0)
  = Ok (flat_map int16_bytes (take n wb)).
Proof.
  intros Hn.
  destruct (for_loop_invariant
              (fun j data =>
                 data = flat_map int16_bytes (take j wb)
                          ++ replicate ((n - j) * 2) 0)
              (copy_sample wb) n 0%nat (replicate (n * 2) 0))
    as (data & Hrun & Hdata).
  - rewrite take_0, Nat.sub_0_r. reflexivity.
  - intros j data Hj ->.
    destruct (lookup_lt_is_Some_2 wb j ltac:(lia)) as (v & Hv).
    unfold copy_sample. rewrite Hv. cbv zeta. unfold int16_bytes at 1.
    cbv zeta. eexists. split; [reflexivity|].
    rewrite (take_S_r _ _ _ Hv), flat_map_app, <- app_assoc.
    assert (Hlen : length (flat_map int16_bytes (take j wb)) = (2 * j)%nat).
    { rewrite int16_bytes_flat_length, length_take. lia. }
    replace ((n - j) * 2)%nat
      with (Datatypes.S (Datatypes.S ((n - Datatypes.S j) * 2))) by lia.
    cbn [replicate].
    rewrite !insert_app_r_alt by (rewrite ?length_insert; lia).
    rewrite Hlen.
    replace (2 * j - 2 * j)%nat with 0%nat by lia.
    replace (2 * j + 1 - 2 * j)%nat with 1%nat by lia.
    reflexivity.
  - rewrite Hrun, Hdata. cbn [Nat.add]. rewrite Nat.sub_diag. simpl.
    now rewrite app_nil_r.
Qed.

(** The chunk of a full working buffer. *)
Lemma make_chunk_bytes (ctx : AudioStreamContext) (d : Z) :
  let total :=
    (samples_per_chunk ctx * Z.to_nat (num_channels (info ctx)))%nat in
  (total <= length (working_buffer ctx))%nat ->
  Chrono.duration_cast_ns
    (Double.div (Double.of_Z (Z.of_nat (samples_per_chunk ctx)))
                (Double.of_Z (sample_rate_hz (info ctx)))) = Ok d ->
  in_int64 (current_chunk_start_ns ctx + d) = true ->
  make_chunk ctx
  = Ok {| AudioIn.audio_data :=
            flat_map int16_bytes (take total (working_buffer ctx));
          AudioIn.info := info ctx;
          AudioIn.start_timestamp_ns := current_chunk_start_ns ctx;
          AudioIn.end_timestamp_ns := current_chunk_start_ns ctx + d |}.
Proof.
  intros total Hwb Hd Hend. unfold make_chunk. fold total.
  rewrite (copy_samples_bytes _ _ Hwb). cbn [Cxx.bind].
  rewrite Hd. cbn [Cxx.bind]. unfold int64_add. rewrite Hend. reflexivity.
Qed.


Lemma callback_frame_untouched (input : list Z) (secs : Double.double)
    (ctx0 : AudioStreamContext) (j : nat) (ctx ctx' : AudioStreamContext) :
  untouched ctx0 ctx ->
  callback_frame input secs j ctx = Ok ctx' ->
  untouched ctx0 ctx'.
Proof.
  intros (Hhb & Hhi & Hhc & Hrec & Hst & Hadc & Hcap).
  unfold callback_frame.
  match goal with
  | |- context [Cxx.bind ?m _] => remember m as ctx1 eqn:Hcx
  end.
  destruct ctx1 as [cx| |]; cbn -[Nat.eqb]; try discriminate.
  assert (Hsame : exists t, cx = set_current_chunk_start_ns t ctx).
  { destruct (current_sample_count ctx =? 0)%nat.
    - destruct (calculate_sample_timestamp _ _ _) as [t| |]; simpl in Hcx;
        try discriminate. injection Hcx as ->. now exists t.
    - injection Hcx as ->. exists (current_chunk_start_ns ctx).
      now destruct ctx. }
  destruct Hsame as (t & ->). cbn -[Nat.eqb].
  destruct (num_channels (info ctx) <? 0); [discriminate|].
  destruct (for_loop _ 0 (copy_channel _ _ _ _) _) as [wb| |];
    cbn -[Nat.eqb]; try discriminate.
  destruct (Nat.eqb_spec (Datatypes.S (current_sample_count ctx))
                         (samples_per_chunk ctx)) as [Hfull|Hpart].
  - destruct (make_chunk _) as [c| |]; simpl; try discriminate.
    intros [= <-]. unfold untouched. simpl. repeat split; assumption.
  - intros [= <-]. unfold untouched. simpl. repeat split; assumption.
Qed.

Lemma frames_loop_kept (input : list Z) (secs : Double.double)
    (frames : nat) (ctx ctx' : AudioStreamContext) :
  (current_sample_count ctx < samples_per_chunk ctx)%nat ->
  (length (lockfree_queue ctx) <= queue_capacity)%nat ->
  for_loop frames 0 (callback_frame input secs) ctx = Ok ctx' ->
  frames_kept ctx frames ctx' /\ untouched ctx ctx'.
Proof.
  intros Hc Hq Hrun.
  apply (for_loop_preserves
           (fun j cx => frames_kept ctx j cx /\ untouched ctx cx)
           (callback_frame input secs) frames 0%nat ctx ctx');
    [| |exact Hrun].
  - split; [|unfold untouched; repeat split].
    unfold frames_kept. rewrite Nat.add_0_r.
    rewrite Nat.mod_small, Nat.div_small by exact Hc.
    repeat split. exists []. rewrite app_nil_r, Nat.add_0_r.
    split; [reflexivity|]. split; [lia|constructor].
  - intros j cx cx' _ [Hk Hu] Hstep. split.
    + exact (callback_frame_kept input secs ctx j cx cx' Hc Hq Hk Hstep).
    + exact (callback_frame_untouched input secs ctx j cx cx' Hu Hstep).
Qed.

Lemma AudioCallback_recording (input : list Z) (frames : nat)
    (timeInfo : PaStreamCallbackTimeInfo) (now : Z) (ctx : AudioStreamContext) :
  is_recording ctx = true ->
  AudioCallback (Some input) frames timeInfo now ctx =
  let ctxa := anchored timeInfo now ctx in
  let* ctx' :=
    for_loop frames 0
      (callback_frame input
         (Double.sub (inputBufferAdcTime timeInfo)
                     (first_callback_adc_time ctxa))) ctxa in
  Ok (ctx', paContinue).
Proof. intros Hrec. unfold AudioCallback, anchored. now rewrite Hrec. Qed.

Lemma anchored_reads (timeInfo : PaStreamCallbackTimeInfo) (now : Z)
    (ctx : AudioStreamContext) :
  let ctxa := anchored timeInfo now ctx in
  lockfree_queue ctxa = lockfree_queue ctx /\
  history_buffer ctxa = history_buffer ctx /\
  history_write_index ctxa = history_write_index ctx /\
  history_capacity ctxa = history_capacity ctx /\
  info ctxa = info ctx /\
  working_buffer ctxa = working_buffer ctx /\
  samples_per_chunk ctxa = samples_per_chunk ctx /\
  current_sample_count ctxa = current_sample_count ctx /\
  current_chunk_start_ns ctxa = current_chunk_start_ns ctx /\
  is_recording ctxa = is_recording ctx /\
  first_callback_captured ctxa = true.
Proof.
  unfold anchored. destruct (first_callback_captured ctx) eqn:Hcap; simpl;
    repeat split; assumption.
Qed.

(** X4.  A call of [AudioCallback] that records and completes returns
    [paContinue]; the frame counter is the old one plus the frames of the
    delivery, modulo [samples_per_chunk]; the queue has grown by one chunk
    for every time the counter wrapped, up to its capacity of 100; the
    queue was only appended to, with chunks that carry the stream's [info]
    and two bytes per sample; the chunk size, the [info] and the size of
    the working buffer are as before. *)
Theorem AudioCallback_counts_frames (input : list Z) (frames : nat)
    (timeInfo : PaStreamCallbackTimeInfo) (now : Z)
    (ctx ctx' : AudioStreamContext) (r : Z) :
  is_recording ctx = true ->
  (current_sample_count ctx < samples_per_chunk ctx)%nat ->
  (length (lockfree_queue ctx) <= queue_capacity)%nat ->
  AudioCallback (Some input) frames timeInfo now ctx = Ok (ctx', r) ->
  r = paContinue /\
  current_sample_count ctx'
    = ((current_sample_count ctx + frames) mod samples_per_chunk ctx)%nat /\
  length (lockfree_queue ctx')
    = Nat.min queue_capacity
        (length (lockfree_queue ctx)
         + (current_sample_count ctx + frames) / samples_per_chunk ctx)%nat /\
  (exists new,
      lockfree_queue ctx' = lockfree_queue ctx ++ new /\
      Forall (fun c =>
                AudioIn.info c = info ctx /\
                length (AudioIn.audio_data c)
                  = (2 * (samples_per_chunk ctx
                          * Z.to_nat (num_channels (info ctx))))%nat) new) /\
  samples_per_chunk ctx' = samples_per_chunk ctx /\
  info ctx' = info ctx /\
  length (working_buffer ctx') = length (working_buffer ctx).
Proof.
  intros Hrec Hc Hq. rewrite (AudioCallback_recording _ _ _ _ _ Hrec).
  cbv zeta.
  destruct (anchored_reads timeInfo now ctx)
    as (Aq & _ & _ & _ & Ai & Aw & As & Ac & _).
  destruct (for_loop _ _ _ _) as [cx| |] eqn:Hrun; simpl; try discriminate.
  intros [= <- <-].
  apply frames_loop_kept in Hrun; [|rewrite Ac, As; exact Hc|rewrite Aq; exact Hq].
  destruct Hrun as ((Hspc & Hinfo & Hwb & Hcnt & new & Hnq & Hqlen & Hnew) & _).
  rewrite Aq, Ai, Aw, As, Ac in *.
  split; [reflexivity|]. split; [exact Hcnt|]. split; [exact Hqlen|].
  split; [exists new; split; assumption|]. auto.
Qed.

Lemma AudioCallback_counts_frames_witness :
  exists ctx' r,
    AudioCallback (Some five_frames) 5
        {| inputBufferAdcTime := Double.of_Z 1000 |} 1700000000000000000
        tiny_context = Ok (ctx', r) /\
    r = paContinue /\
    current_sample_count ctx' = 1%nat /\
    length (lockfree_queue ctx') = 2%nat.
Proof.
  destruct (AudioCallback (Some five_frames) 5
              {| inputBufferAdcTime := Double.of_Z 1000 |} 1700000000000000000
              tiny_context) as [[ctx' r]| |] eqn:Hrun;
    [|vm_compute in Hrun; discriminate..].
  exists ctx', r. split; [reflexivity|].
  destruct (AudioCallback_counts_frames five_frames 5
              {| inputBufferAdcTime := Double.of_Z 1000 |} 1700000000000000000
              tiny_context ctx' r)
    as (Hr & Hcnt & Hlen & _);
    [reflexivity|simpl; lia|simpl; lia|exact Hrun|].
  split; [exact Hr|]. split; [exact Hcnt|exact Hlen].
Defined.

(** X5.  A call of [AudioCallback] that records and completes leaves the
    anchor taken; the wall-clock and the device time of the anchor are the
    ones of this call if none was taken before and the old ones otherwise;
    the history buffer, its index and capacity and the recording flag are
    not written. *)
Theorem AudioCallback_anchors_once (input : list Z) (frames : nat)
    (timeInfo : PaStreamCallbackTimeInfo) (now : Z)
    (ctx ctx' : AudioStreamContext) (r : Z) :
  is_recording ctx = true ->
  AudioCallback (Some input) frames timeInfo now ctx = Ok (ctx', r) ->
  first_callback_captured ctx' = true /\
  stream_start_time ctx'
    = (if first_callback_captured ctx then stream_start_time ctx else now) /\
  first_callback_adc_time ctx'
    = (if first_callback_captured ctx then first_callback_adc_time ctx
       else inputBufferAdcTime timeInfo) /\
  is_recording ctx' = true /\
  history_buffer ctx' = history_buffer ctx /\
  history_write_index ctx' = history_write_index ctx /\
  history_capacity ctx' = history_capacity ctx.
Proof.
  intros Hrec. rewrite (AudioCallback_recording _ _ _ _ _ Hrec). cbv zeta.
  destruct (for_loop _ _ _ _) as [cx| |] eqn:Hrun; simpl; try discriminate.
  intros [= <- <-].
  assert (Hu : untouched (anchored timeInfo now ctx) cx).
  { refine (for_loop_preserves
              (fun _ c => untouched (anchored timeInfo now ctx) c)
              _ frames 0%nat _ cx _ _ Hrun).
    - unfold untouched. repeat split.
    - intros j c c' _ Hc Hstep.
      exact (callback_frame_untouched _ _ _ j c c' Hc Hstep). }
  destruct Hu as (Hhb & Hhi & Hhc & Hr & Hst & Hadc & Hcap).
  rewrite Hhb, Hhi, Hhc, Hr, Hst, Hadc, Hcap. unfold anchored.
  destruct (first_callback_captured ctx) eqn:Hc; simpl; auto 10.
Qed.


Lemma AudioCallback_anchors_once_witness :
  exists ctx' r,
    AudioCallback (Some five_frames) 5
        {| inputBufferAdcTime := Double.of_Z 1000 |} 1700000000000000000
        tiny_context = Ok (ctx', r) /\
    first_callback_captured ctx' = true /\
    stream_start_time ctx' = 1700000000000000000 /\
    history_buffer ctx' = history_buffer tiny_context.
Proof.
  destruct (AudioCallback (Some five_frames) 5
              {| inputBufferAdcTime := Double.of_Z 1000 |} 1700000000000000000
              tiny_context) as [[ctx' r]| |] eqn:Hrun;
    [|vm_compute in Hrun; discriminate..].
  exists ctx', r. split; [reflexivity|].
  destruct (AudioCallback_anchors_once five_frames 5
              {| inputBufferAdcTime := Double.of_Z 1000 |} 1700000000000000000
              tiny_context ctx' r)
    as (Hcap & Hst & _ & _ & Hhb & _); [reflexivity|exact Hrun|].
  split; [exact Hcap|]. split; [exact Hst|exact Hhb].
Defined.

Lemma buffered_reads (ctx : AudioStreamContext) (t0 : Z) (j : nat)
    (wb : list Z) :
  let cx := buffered ctx t0 j wb in
  lockfree_queue cx = lockfree_queue ctx /\
  info cx = info ctx /\
  working_buffer cx = wb /\
  samples_per_chunk cx = samples_per_chunk ctx /\
  current_sample_count cx = (current_sample_count ctx + j)%nat /\
  stream_start_time cx = stream_start_time ctx /\
  current_chunk_start_ns cx
    = (if ((current_sample_count ctx =? 0) && (0 <? j))%nat
       then t0 else current_chunk_start_ns ctx).
Proof.
  unfold buffered.
  destruct ((current_sample_count ctx =? 0) && (0 <? j))%nat; simpl;
    repeat split.
Qed.

(** X6.  A delivery that continues a chunk without completing it returns
    [paContinue], queues nothing and computes no timestamp: the frames are
    copied to the working buffer behind the frames that are there, the
    counter advances by their number, and the rest of the working buffer is
    as it was. *)
Theorem delivery_within_a_chunk_only_buffers (input : list Z) (frames : nat)
    (timeInfo : PaStreamCallbackTimeInfo) (now : Z) (ctx : AudioStreamContext) :
  let c0 := current_sample_count ctx in
  let nc := Z.to_nat (num_channels (info ctx)) in
  is_recording ctx = true ->
  (0 < c0)%nat ->
  (c0 + frames < samples_per_chunk ctx)%nat ->
  0 <= num_channels (info ctx) ->
  (frames * nc <= length input)%nat ->
  (samples_per_chunk ctx * nc <= length (working_buffer ctx))%nat ->
  exists ctx',
    AudioCallback (Some input) frames timeInfo now ctx = Ok (ctx', paContinue) /\
    current_sample_count ctx' = (c0 + frames)%nat /\
    lockfree_queue ctx' = lockfree_queue ctx /\
    current_chunk_start_ns ctx' = current_chunk_start_ns ctx /\
    length (working_buffer ctx') = length (working_buffer ctx) /\
    forall k,
      working_buffer ctx' !! k =
      if ((c0 * nc <=? k) && (k <? (c0 + frames) * nc))%nat
      then input !! (k - c0 * nc)%nat
      else working_buffer ctx !! k.
Proof.
  intros c0 nc Hrec Hpos Hc Hnc Hin Hwb.
  rewrite (AudioCallback_recording _ _ _ _ _ Hrec). cbv zeta.
  destruct (anchored_reads timeInfo now ctx)
    as (Aq & _ & _ & _ & Ai & Aw & As & Ac & At & _).
  set (ctxa := anchored timeInfo now ctx) in *.
  destruct (buffered_frames input
              (Double.sub (inputBufferAdcTime timeInfo)
                          (first_callback_adc_time ctxa))
              ctxa 0 frames) as (wb' & Hrun & Hlen & Hlay).
  - now rewrite Ai.
  - rewrite Ac, As. exact Hc.
  - rewrite Ai. exact Hin.
  - rewrite Ai, As, Aw. exact Hwb.
  - rewrite Ac. fold c0. lia.
  - rewrite Hrun. cbn [Cxx.bind].
    destruct (buffered_reads ctxa 0 frames wb')
      as (Bq & _ & Bw & _ & Bc & _ & Bt).
    eexists. split; [reflexivity|].
    rewrite Bq, Bw, Bc, Bt, Aq, Ac, At. fold c0.
    rewrite Ac, Ai, Aw in Hlay. fold c0 nc in Hlay. rewrite Aw in Hlen.
    destruct (Nat.eqb_spec c0 0); [lia|]. cbn [andb].
    repeat split; assumption.
Qed.


Lemma delivery_within_a_chunk_only_buffers_witness :
  exists ctx',
    AudioCallback (Some [1; 2; 3; 4]) 2
        {| inputBufferAdcTime := Double.of_Z 1000 |} 1700000000000000000
        started_context = Ok (ctx', paContinue) /\
    current_sample_count ctx' = 3%nat /\
    lockfree_queue ctx' = [] /\
    working_buffer ctx' !! 2%nat = Some 1 /\
    working_buffer ctx' !! 5%nat = Some 4 /\
    working_buffer ctx' !! 6%nat = Some 0.
Proof.
  destruct (delivery_within_a_chunk_only_buffers [1; 2; 3; 4] 2
              {| inputBufferAdcTime := Double.of_Z 1000 |} 1700000000000000000
              started_context)
    as (ctx' & Hrun & Hcnt & Hq & _ & _ & Hlay);
    [reflexivity|simpl; lia|simpl; lia|simpl; lia|simpl; lia|simpl; lia|].
  exists ctx'. split; [exact Hrun|]. split; [exact Hcnt|]. split; [exact Hq|].
  split; [exact (Hlay 2%nat)|]. split; [exact (Hlay 5%nat)|exact (Hlay 6%nat)].
Defined.

(** X7.  A delivery of exactly [samples_per_chunk] frames to a stream
    that is between chunks, when the queue has room: one chunk is queued.
    Its bytes are the samples of the delivery, two bytes each, low byte
    first; it starts at the timestamp [t0] of sample 0 of the delivery and
    ends [d] later, the duration of [samples_per_chunk] frames; the counter
    is 0 again. *)
Theorem delivery_of_one_chunk (input : list Z)
    (timeInfo : PaStreamCallbackTimeInfo) (now : Z) (ctx : AudioStreamContext)
    (t0 d : Z) :
  let nc := Z.to_nat (num_channels (info ctx)) in
  let spc := samples_per_chunk ctx in
  let ctxa := anchored timeInfo now ctx in
  is_recording ctx = true ->
  current_sample_count ctx = 0%nat ->
  (0 < spc)%nat ->
  0 <= num_channels (info ctx) ->
  (spc * nc <= length input)%nat ->
  (spc * nc <= length (working_buffer ctx))%nat ->
  (length (lockfree_queue ctx) < queue_capacity)%nat ->
  calculate_sample_timestamp ctxa
    (Double.sub (inputBufferAdcTime timeInfo) (first_callback_adc_time ctxa)) 0
    = Ok t0 ->
  Chrono.duration_cast_ns
    (Double.div (Double.of_Z (Z.of_nat spc))
                (Double.of_Z (sample_rate_hz (info ctx)))) = Ok d ->
  in_int64 (t0 + d) = true ->
  exists ctx',
    AudioCallback (Some input) spc timeInfo now ctx = Ok (ctx', paContinue) /\
    lockfree_queue ctx'
      = lockfree_queue ctx
          ++ [{| AudioIn.audio_data :=
                   flat_map int16_bytes (take (spc * nc) input);
                 AudioIn.info := info ctx;
                 AudioIn.start_timestamp_ns := t0;
                 AudioIn.end_timestamp_ns := t0 + d |}] /\
    current_sample_count ctx' = 0%nat.
Proof.
  intros nc spc ctxa Hrec Hc0 Hspc Hnc Hin Hwb Hq Ht0 Hd Hend.
  rewrite (AudioCallback_recording _ _ _ _ _ Hrec). cbv zeta. fold ctxa.
  destruct (anchored_reads timeInfo now ctx)
    as (Aq & _ & _ & _ & Ai & Aw & As & Ac & _).
  fold ctxa in Aq, Ai, Aw, As, Ac.
  set (secs := Double.sub _ _) in *.
  destruct spc as [|m] eqn:Hm; [lia|]. subst spc.
  rewrite for_loop_snoc.
  destruct (buffered_frames input secs ctxa t0 m)
    as (wbm & Hrun & Hlen & Hlay).
  { now rewrite Ai. } { rewrite Ac, As, Hc0, Hm. lia. }
  { rewrite Ai. fold nc. lia. } { rewrite Ai, As, Aw, Hm. exact Hwb. }
  { intros _. exact Ht0. }
  rewrite Hrun. cbn [Cxx.bind Nat.add].
  rewrite Ac, Hc0, Ai in Hlay. fold nc in Hlay. cbn [Nat.add Nat.mul] in Hlay.
  destruct (buffered_reads ctxa t0 m wbm)
    as (Bq & Bi & Bw & Bs & Bc & Bst & Bt).
  rewrite Ac, Hc0 in Bc, Bt. cbn [Nat.add Nat.eqb andb] in Bc, Bt.
  set (cm := buffered ctxa t0 m wbm) in *.
  destruct (callback_frame_copies input secs m cm t0)
    as (w & Hwlen & Hwlay & Hframe).
  { now rewrite Bi, Ai. } { rewrite Bc, Bs, As, Hm. lia. }
  { rewrite Bi, Ai. fold nc. lia. }
  { rewrite Bi, Ai, Bs, As, Bw, Hlen, Aw, Hm. exact Hwb. }
  { rewrite Bc. intros ->.
    rewrite (calculate_sample_timestamp_reads cm ctxa) by congruence.
    exact Ht0. }
  rewrite Hframe. cbv zeta. rewrite Bc, Bs, As, Hm, Nat.eqb_refl.
  rewrite Bc, Bi, Ai, Bw in Hwlay. fold nc in Hwlay.
  set (cf := if (m =? 0)%nat then set_current_chunk_start_ns t0 cm else cm).
  assert (Hcf : lockfree_queue cf = lockfree_queue ctx /\
                info cf = info ctx /\ samples_per_chunk cf = Datatypes.S m /\
                current_chunk_start_ns cf = t0).
  { subst cf. destruct (Nat.eqb_spec m 0) as [->|Hm0];
      cbn [lockfree_queue info samples_per_chunk current_chunk_start_ns
           set_current_chunk_start_ns].
    - rewrite Bq, Bi, Bs, Aq, Ai, As, Hm. auto.
    - rewrite Bq, Bi, Bs, Bt, Aq, Ai, As, Hm.
      destruct m; [congruence|]. auto. }
  destruct Hcf as (Fq & Fi & Fs & Ft).
  rewrite (make_chunk_bytes _ d); cbn [Cxx.bind info samples_per_chunk
    working_buffer current_chunk_start_ns set_current_sample_count
    set_working_buffer]; rewrite ?Fi, ?Fs, ?Ft; fold nc;
    [|rewrite Hwlen, Bw, Hlen, Aw; exact Hwb|exact Hd|exact Hend].
  eexists. split; [reflexivity|].
  unfold push_chunk, spsc_queue.push.
  cbn [lockfree_queue set_current_sample_count set_working_buffer
       set_lockfree_queue current_sample_count].
  rewrite Fq. destruct (Nat.ltb_spec (length (lockfree_queue ctx))
                                     queue_capacity); [|lia].
  cbn [fst]. split; [|reflexivity]. do 3 f_equal.
  f_equal. apply list_eq. intros k.
  destruct (Nat.lt_ge_cases k (Datatypes.S m * nc)) as [Hk|Hk].
  - rewrite !lookup_take_lt by exact Hk. rewrite Hwlay, Hlay.
    destruct (Nat.leb_spec (m * nc) k);
      destruct (Nat.ltb_spec k (m * nc + nc)); cbn [andb].
    + f_equal. lia.
    + lia.
    + destruct (Nat.ltb_spec k (m * nc)); [|lia].
      now rewrite Nat.sub_0_r.
    + lia.
  - rewrite !lookup_take_ge by exact Hk. reflexivity.
Qed.


Lemma delivery_of_one_chunk_witness :
  exists ctx',
    AudioCallback (Some [1; 2; 3; 4]) 2
        {| inputBufferAdcTime := Double.of_Z 1000 |} 1700000000000000000
        tiny_context = Ok (ctx', paContinue) /\
    lockfree_queue ctx'
      = [{| AudioIn.audio_data := [1; 0; 2; 0; 3; 0; 4; 0];
            AudioIn.info := info tiny_context;
            AudioIn.start_timestamp_ns := 1700000000000000000;
            AudioIn.end_timestamp_ns := 1700000000500000000 |}] /\
    current_sample_count ctx' = 0%nat.
Proof.
  apply (delivery_of_one_chunk [1; 2; 3; 4]
           {| inputBufferAdcTime := Double.of_Z 1000 |} 1700000000000000000
           tiny_context 1700000000000000000 500000000);
    try reflexivity; simpl; unfold queue_capacity; lia.
Defined.

(** A zero sample rate: the sample period is infinite and the timestamp
    is no [int64_t]. *)
Lemma calculate_sample_timestamp_zero_rate (ctx : AudioStreamContext)
    (secs : Double.double) (i : Z) :
  sample_rate_hz (info ctx) = 0 ->
  calculate_sample_timestamp ctx secs i = Undefined.
Proof.
  intros Hrate. unfold calculate_sample_timestamp. rewrite Hrate.
  change (Double.div (Double.of_Z 1) (Double.of_Z 0))
    with (S754_infinity false).
  unfold Chrono.duration_cast_ns.
  change (Double.of_Z 1000000000)
    with (S754_finite false 8388608000000000 (-23)).
  destruct (Double.of_Z i) as [s|s| |s m e], secs as [s'|s'| |s' m' e'];
    try destruct s; try destruct s'; reflexivity.
Qed.

(** X8.  With a sample rate of 0 the first frame of a chunk has no
    timestamp: [1.0 / 0] is infinite and the conversion to nanoseconds is
    undefined. *)
Theorem AudioCallback_zero_sample_rate_is_undefined (input : list Z)
    (frames : nat) (timeInfo : PaStreamCallbackTimeInfo) (now : Z)
    (ctx : AudioStreamContext) :
  is_recording ctx = true ->
  current_sample_count ctx = 0%nat ->
  sample_rate_hz (info ctx) = 0 ->
  (0 < frames)%nat ->
  AudioCallback (Some input) frames timeInfo now ctx = Undefined.
Proof.
  intros Hrec Hc Hrate Hframes.
  rewrite (AudioCallback_recording _ _ _ _ _ Hrec). cbv zeta.
  destruct (anchored_reads timeInfo now ctx)
    as (_ & _ & _ & _ & Ai & _ & _ & Ac & _).
  destruct frames as [|n]; [lia|].
  cbn [for_loop]. unfold callback_frame at 1. rewrite Ac, Hc.
  cbn [Nat.eqb].
  rewrite calculate_sample_timestamp_zero_rate by (rewrite Ai; exact Hrate).
  reflexivity.
Qed.

Lemma AudioCallback_zero_sample_rate_is_undefined_witness :
  AudioCallback (Some [1; 2]) 1
    {| inputBufferAdcTime := Double.of_Z 1000 |} 1700000000000000000
    (make_context {| codec := "pcm16"; sample_rate_hz := 0; num_channels := 2 |}
                  2 3)
  = Undefined.
Proof.
  apply (AudioCallback_zero_sample_rate_is_undefined [1; 2] 1
           {| inputBufferAdcTime := Double.of_Z 1000 |} 1700000000000000000
           (make_context
              {| codec := "pcm16"; sample_rate_hz := 0; num_channels := 2 |}
              2 3));
    [reflexivity|reflexivity|reflexivity|lia].
Defined.

End audio_callback_facts.

(* ================================================================= *)
(** ** Where the encoder's samples go *)

Module mp3_encoder_accounting.
Import libav mp3_encoder loops mp3_encoder_facts.

(** A loop that completes completes the same way on a body that returns
    whatever the first one returns. *)
Lemma for_loop_follows {S : Type} (body body' : nat -> S -> outcome S)
    (n : nat) :
  forall (i : nat) (s s' : S),
    (forall j t t', body j t = Ok t' -> body' j t = Ok t') ->
    for_loop n i body s = Ok s' -> for_loop n i body' s = Ok s'.
Proof.
  induction n as [|n IH]; intros i s s' Hbody; simpl; [auto|].
  destruct (body i s) as [t| |] eqn:Ht; simpl; try discriminate.
  rewrite (Hbody i s t Ht). simpl. now apply IH.
Qed.

Section Facts.
Context `{LibAV}.

Lemma deinterleave_plane_layout (interleaved : list Z) (frame_size nc ch : nat)
    (plane : list Z) :
  (frame_size * nc <= length interleaved)%nat -> (ch < nc)%nat ->
  (frame_size <= length plane)%nat ->
  exists plane',
    for_loop frame_size 0 (deinterleave_sample interleaved nc ch) plane
      = Ok plane' /\
    length plane' = length plane /\
    forall i, plane' !! i =
              if (i <? frame_size)%nat then interleaved !! (i * nc + ch)%nat
              else plane !! i.
Proof.
  intros Hsrc Hch Hdst.
  destruct (for_loop_invariant
              (fun j p => length p = length plane /\
                          forall i, p !! i =
                                    if (i <? j)%nat
                                    then interleaved !! (i * nc + ch)%nat
                                    else plane !! i)
              (deinterleave_sample interleaved nc ch) frame_size 0 plane)
    as (plane' & Hrun & Hlen & Hget).
  - split; [reflexivity|]. intros i. reflexivity.
  - intros j p Hj [Hlen Hget]. unfold deinterleave_sample.
    destruct (lookup_lt_is_Some_2 interleaved (j * nc + ch)) as [v Hv]; [nia|].
    rewrite Hv.
    destruct (Nat.ltb_spec j (length p)); [|lia].
    eexists. split; [reflexivity|]. split; [now rewrite length_insert|].
    intros i. destruct (decide (j = i)) as [<-|Hne].
    + rewrite list_lookup_insert_eq by lia.
      destruct (Nat.ltb_spec j (S j)); [|lia]. now rewrite Hv.
    + rewrite list_lookup_insert_ne by exact Hne. rewrite Hget.
      destruct (Nat.ltb_spec i j), (Nat.ltb_spec i (S j)); try lia; reflexivity.
  - exists plane'. auto.
Qed.

(** X9.  [deinterleave_samples] writes sample [i * num_channels + ch] of the
    interleaved run to sample [i] of plane [ch], for every channel and the
    first [frame_size] samples; the rest of the frame is as it was. *)
Theorem deinterleave_samples_layout (interleaved : list Z) (f : AVFrame.t)
    (frame_size num_channels : Z) :
  frame_fits f frame_size num_channels ->
  (Z.to_nat frame_size * Z.to_nat num_channels <= length interleaved)%nat ->
  exists f',
    deinterleave_samples interleaved f frame_size num_channels = Ok f' /\
    AVFrame.nb_samples f' = AVFrame.nb_samples f /\
    length (AVFrame.data f') = length (AVFrame.data f) /\
    forall ch plane,
      AVFrame.data f !! ch = Some plane ->
      exists plane',
        AVFrame.data f' !! ch = Some plane' /\
        length plane' = length plane /\
        forall i,
          plane' !! i =
          if ((ch <? Z.to_nat num_channels) && (i <? Z.to_nat frame_size))%nat
          then interleaved !! (i * Z.to_nat num_channels + ch)%nat
          else plane !! i.
Proof.
  intros [Hn Hfit] Hsrc. unfold deinterleave_samples.
  set (fs := Z.to_nat frame_size) in *. set (nc := Z.to_nat num_channels) in *.
  destruct (for_loop_invariant
              (fun j planes =>
                 length planes = length (AVFrame.data f) /\
                 forall ch plane,
                   AVFrame.data f !! ch = Some plane ->
                   exists plane',
                     planes !! ch = Some plane' /\
                     length plane' = length plane /\
                     forall i,
                       plane' !! i =
                       if ((ch <? j) && (i <? fs))%nat
                       then interleaved !! (i * nc + ch)%nat
                       else plane !! i)
              (deinterleave_plane interleaved fs nc) nc 0 (AVFrame.data f))
    as (planes & -> & Hlen & Hget).
  - split; [reflexivity|]. intros ch plane Hplane. exists plane. auto.
  - intros j planes Hj [Hlen Hget].
    destruct (lookup_lt_is_Some_2 (AVFrame.data f) j) as [plane Hplane]; [lia|].
    destruct (Hget j plane Hplane) as (p & Hp & Hplen & Hpget).
    unfold deinterleave_plane. rewrite Hp.
    destruct (deinterleave_plane_layout interleaved fs nc j p)
      as (p' & -> & Hp'len & Hp'get); [exact Hsrc|lia| |].
    { rewrite Hplen. eapply Hfit; [|exact Hplane]. lia. }
    eexists. split; [reflexivity|]. split; [now rewrite length_insert|].
    intros ch q Hq. destruct (decide (j = ch)) as [<-|Hne].
    + rewrite list_lookup_insert_eq by lia.
      assert (q = plane) as -> by congruence.
      exists p'. split; [reflexivity|]. split; [congruence|].
      intros i. rewrite Hp'get, Hpget.
      destruct (Nat.ltb_spec j (S j)); [|lia].
      destruct (Nat.ltb_spec j j); [lia|]. simpl.
      now destruct (i <? fs)%nat.
    + rewrite list_lookup_insert_ne by exact Hne.
      destruct (Hget ch q Hq) as (q' & ? & ? & Hq'get).
      exists q'. split; [assumption|]. split; [assumption|].
      intros i. rewrite Hq'get.
      destruct (Nat.ltb_spec ch j), (Nat.ltb_spec ch (S j)); try lia; reflexivity.
  - simpl. eexists. split; [reflexivity|]. simpl. auto.
Qed.


Lemma receive_packets_appends (fuel : nat) :
  forall s output_data ret output_data' s',
    receive_packets fuel s output_data = Some (ret, output_data', s') ->
    exists extra, output_data' = output_data ++ extra.
Proof.
  induction fuel as [|fuel IH]; intros s out ret out' s'; simpl;
    destruct (avcodec_receive_packet s) as [[r pkt] s1];
    destruct (r =? 0); try discriminate.
  - intros [= _ <- _]. exists []. now rewrite app_nil_r.
  - intros Hrun. destruct (IH _ _ _ _ _ Hrun) as [extra ->].
    exists (pkt ++ extra). now rewrite app_assoc.
  - intros [= _ <- _]. exists []. now rewrite app_nil_r.
Qed.

(** Where the samples, the output and the log are when the encode loop
    ends, however it ends. *)
Lemma encode_loop_accounts (fuel : nat) :
  forall state output_data log,
    Ready state ->
    (length (buffer state) <= fuel)%nat ->
    exists r j,
      encode_loop fuel (Z.to_nat (frame_samples state)) state output_data log
        = Ok r /\
      buffer (enc_state r)
        = drop (j * Z.to_nat (frame_samples state)) (buffer state) /\
      (j * Z.to_nat (frame_samples state) <= length (buffer state))%nat /\
      (exists extra, enc_output r = output_data ++ extra) /\
      (exists more, enc_log r = log ++ more) /\
      sample_rate (enc_state r) = sample_rate state /\
      num_channels (enc_state r) = num_channels state /\
      (enc_completion r = Returned ->
       (length (buffer (enc_state r)) < Z.to_nat (frame_samples state))%nat) /\
      (enc_completion r
         = Thrown (runtime_error "Error sending frame to MP3 encoder") ->
       (Z.to_nat (frame_samples state) <= length (buffer (enc_state r)))%nat) /\
      (enc_completion r = Thrown (runtime_error "Could not allocate packet") ->
       (1 <= j)%nat).
Proof.
  induction fuel as [|fuel IH]; intros state output_data log HR Hfuel;
    pose proof HR as (c & f & Hc & Hf & Hfs & Hnc & Hmax & Hfit);
    assert (Hspf : frame_samples state
                   = AVCodecContext.frame_size c * num_channels state)
      by (unfold frame_samples; now rewrite Hc);
    simpl;
    destruct (Nat.ltb_spec (length (buffer state))
                           (Z.to_nat (frame_samples state))) as [Hlt|Hge];
    try (eexists; exists 0%nat; split; [reflexivity|]; simpl;
         repeat split; auto; try discriminate; try lia;
         try (exists []; now rewrite app_nil_r)).
  - nia.
  - rewrite Hc, Hf.
    destruct (deinterleave_samples_ok (buffer state) f
                (AVCodecContext.frame_size c) (num_channels state) Hfit)
      as (f' & -> & Hfit').
    { rewrite <- Z2Nat.inj_mul by lia. now rewrite <- Hspf. }
    simpl.
    destruct (avcodec_send_frame (AVCodecContext.priv_data c) (Some f'))
      as [ret s1] eqn:Hsend.
    destruct (Z.ltb_spec ret 0) as [Hneg|Hpos].
    { eexists; exists 0%nat. split; [reflexivity|]. simpl.
      repeat split; auto; try discriminate; try lia;
        try (exists []; now rewrite app_nil_r). }
    destruct (av_packet_alloc s1) eqn:Halloc; simpl.
    2:{ eexists; exists 1%nat. split; [reflexivity|]. simpl.
        rewrite Nat.add_0_r.
        repeat split; auto; try discriminate; try lia;
          try (exists []; now rewrite app_nil_r). }
    destruct (receive_packets_terminates (pending s1) s1 output_data)
      as (r & out' & s2 & Hpoll & Hr); [lia|].
    rewrite Hpoll.
    destruct (receive_packets_appends _ _ _ _ _ _ Hpoll) as [polled ->].
    set (state' := set_codec s2 c
                     (set_buffer (drop (Z.to_nat (frame_samples state)) (buffer state))
                        (set_codec s1 c (set_frame (Some f') state)))).
    destruct (Ready_change state state' c f' s2) as [HR' Hspf']; auto.
    destruct (IH state' (output_data ++ polled)
                (if expected_response r then log
                 else log ++ [log_encoder_error r]) HR')
      as (res & j & Hrun & Hbuf & Hj & [extra Hout] & [more Hlog]
          & Hrate & Hch & Hret & Hsendfail & Hallocfail).
    { subst state'. simpl. rewrite length_drop. lia. }
    rewrite Hspf' in Hrun, Hbuf, Hj, Hret, Hsendfail.
    exists res, (S j). rewrite Hrun.
    subst state'. simpl in Hbuf, Hj, Hrate, Hch.
    rewrite length_drop in Hj. rewrite drop_drop in Hbuf.
    repeat split; auto; try lia.
    + exists (polled ++ extra). now rewrite Hout, app_assoc.
    + destruct (expected_response r); [now exists more|].
      exists (log_encoder_error r :: more). now rewrite Hlog, <- app_assoc.
Qed.

Lemma encode_accounts (state : MP3EncoderState) (samples output_data : list Z) :
  Ready state ->
  exists r j,
    encode_mp3_samples state samples output_data = Ok r /\
    buffer (enc_state r)
      = drop (j * Z.to_nat (frame_samples state)) (buffer state ++ samples) /\
    (j * Z.to_nat (frame_samples state)
       <= length (buffer state ++ samples))%nat /\
    (exists extra, enc_output r = output_data ++ extra) /\
    sample_rate (enc_state r) = sample_rate state /\
    num_channels (enc_state r) = num_channels state /\
    (enc_completion r = Returned ->
     (length (buffer (enc_state r)) < Z.to_nat (frame_samples state))%nat) /\
    (enc_completion r
       = Thrown (runtime_error "Error sending frame to MP3 encoder") ->
     (Z.to_nat (frame_samples state) <= length (buffer (enc_state r)))%nat) /\
    (enc_completion r = Thrown (runtime_error "Could not allocate packet") ->
     (1 <= j)%nat).
Proof.
  intros HR. pose proof HR as (c & f & Hc & Hf & Hfs & Hnc & Hmax & Hfit).
  unfold encode_mp3_samples. rewrite Hc, Hf. simpl.
  unfold int_mul.
  destruct (Z.leb_spec INT_MIN (AVCodecContext.frame_size c * num_channels state));
    [|unfold INT_MIN in *; nia].
  destruct (Z.leb_spec (AVCodecContext.frame_size c * num_channels state) INT_MAX);
    [|lia].
  simpl. unfold to_size_t.
  rewrite Z.mod_small by (unfold INT_MAX in *; nia).
  set (state' := set_buffer (buffer state ++ samples) state).
  assert (HR' : Ready state') by (exists c, f; simpl; auto 10).
  assert (Hprod : frame_samples state
                  = AVCodecContext.frame_size c * num_channels state)
    by (unfold frame_samples; now rewrite Hc).
  assert (Hprod' : frame_samples state'
                   = AVCodecContext.frame_size c * num_channels state)
    by (unfold frame_samples; simpl; now rewrite Hc).
  destruct (encode_loop_accounts (length (buffer state ++ samples))
              state' output_data [] HR')
    as (r & j & Hrun & Hbuf & Hj & Hout & _ & Hrate & Hch & Hret & Hsf & Haf);
    [reflexivity|].
  rewrite Hprod' in Hrun, Hbuf, Hj, Hret, Hsf.
  exists r, j. rewrite Hprod. auto 12.
Qed.

(** X10.  Fewer samples than one frame, with what is buffered already: the
    call returns, the samples are appended to the buffer, and the codec, the
    frame, the output and the log are not touched. *)
Theorem encode_buffers_incomplete_frame (state : MP3EncoderState)
    (samples output_data : list Z) :
  Ready state ->
  Z.of_nat (length (buffer state ++ samples)) < frame_samples state ->
  encode_mp3_samples state samples output_data =
  Ok {| enc_state := set_buffer (buffer state ++ samples) state;
        enc_output := output_data; enc_log := [];
        enc_completion := Returned |}.
Proof.
  intros (c & f & Hc & Hf & Hfs & Hnc & Hmax & Hfit) Hshort.
  unfold frame_samples in Hshort. rewrite Hc in Hshort.
  unfold encode_mp3_samples. rewrite Hc, Hf. simpl.
  unfold int_mul.
  destruct (Z.leb_spec INT_MIN (AVCodecContext.frame_size c * num_channels state));
    [|unfold INT_MIN in *; nia].
  destruct (Z.leb_spec (AVCodecContext.frame_size c * num_channels state) INT_MAX);
    [|lia].
  simpl. unfold to_size_t.
  rewrite Z.mod_small by (unfold INT_MAX in *; nia).
  destruct (length (buffer state ++ samples)) eqn:Hn; simpl; rewrite Hn;
    match goal with
    | |- context [(?a <? ?b)%nat] =>
        destruct (Nat.ltb_spec a b); [reflexivity|lia]
    end.
Qed.

(** X11.  When [encode_mp3_samples] returns, the buffer holds the samples
    that were left after the last whole frame: the old buffer followed by
    the new samples, without the first [n / spf] frames, which is
    [n mod spf] samples. *)
Theorem encode_keeps_the_remainder (state : MP3EncoderState)
    (samples output_data : list Z) :
  Ready state ->
  exists r,
    encode_mp3_samples state samples output_data = Ok r /\
    (enc_completion r = Returned ->
     let n := length (buffer state ++ samples) in
     let spf := Z.to_nat (frame_samples state) in
     buffer (enc_state r)
       = drop (n / spf * spf)%nat (buffer state ++ samples) /\
     length (buffer (enc_state r)) = (n mod spf)%nat).
Proof.
  intros HR.
  destruct (encode_accounts state samples output_data HR)
    as (r & j & Hrun & Hbuf & Hj & _ & _ & _ & Hret & _).
  exists r. split; [exact Hrun|]. intros Hdone. specialize (Hret Hdone).
  simpl. rewrite Hbuf in Hret. rewrite length_drop in Hret.
  set (n := length (buffer state ++ samples)) in *.
  set (spf := Z.to_nat (frame_samples state)) in *.
  assert (Hq : j = (n / spf)%nat).
  { apply (Nat.div_unique n spf j (n - j * spf)); lia. }
  split.
  - now rewrite Hbuf, Hq.
  - rewrite Hbuf, length_drop. fold n.
    apply (Nat.mod_unique n spf j); lia.
Qed.

(** X12.  When the codec refuses a frame, the samples of that frame and all
    that follow are still in the buffer: only the frames sent before it are
    gone. *)
Theorem encode_refused_frame_stays_buffered (state : MP3EncoderState)
    (samples output_data : list Z) :
  Ready state ->
  exists r,
    encode_mp3_samples state samples output_data = Ok r /\
    (enc_completion r
       = Thrown (runtime_error "Error sending frame to MP3 encoder") ->
     exists sent,
       buffer (enc_state r)
         = drop (sent * Z.to_nat (frame_samples state))
                (buffer state ++ samples) /\
       (Z.to_nat (frame_samples state) <= length (buffer (enc_state r)))%nat).
Proof.
  intros HR.
  destruct (encode_accounts state samples output_data HR)
    as (r & j & Hrun & Hbuf & _ & _ & _ & _ & _ & Hsf & _).
  exists r. split; [exact Hrun|]. intros Hthrown. exists j. auto.
Qed.

(** X13.  [encode_mp3_samples] only appends to the output vector, also when
    it throws; the sample rate and the channel count of the state stay. *)
Theorem encode_appends_to_output (state : MP3EncoderState)
    (samples output_data : list Z) :
  Ready state ->
  exists r extra,
    encode_mp3_samples state samples output_data = Ok r /\
    enc_output r = output_data ++ extra /\
    sample_rate (enc_state r) = sample_rate state /\
    num_channels (enc_state r) = num_channels state.
Proof.
  intros HR.
  destruct (encode_accounts state samples output_data HR)
    as (r & j & Hrun & _ & _ & [extra Hout] & Hrate & Hch & _).
  exists r, extra. auto.
Qed.


(** X14.  A failed [initialize_mp3_encoder] logs nothing and keeps the
    buffered samples, the sample rate and the channel count.  When no codec
    session could be created the state is the one it was; after that the
    state holds the new session, and the frame is replaced only when its
    buffers could not be allocated.  A call that returns leaves a session, a
    frame, an empty buffer and one log record. *)
Theorem initialize_outcomes (state : MP3EncoderState) (rate channels : Z) :
  match init_completion (initialize_mp3_encoder state rate channels) with
  | Returned =>
      exists c f,
        init_state (initialize_mp3_encoder state rate channels)
          = {| encoder_ctx := Some c; frame := Some f; sample_rate := rate;
               num_channels := channels; buffer := [] |} /\
        init_log (initialize_mp3_encoder state rate channels)
          = [log_initialized rate channels (AVCodecContext.frame_size c)]
  | Thrown (runtime_error what) =>
      init_log (initialize_mp3_encoder state rate channels) = [] /\
      buffer (init_state (initialize_mp3_encoder state rate channels))
        = buffer state /\
      sample_rate (init_state (initialize_mp3_encoder state rate channels))
        = sample_rate state /\
      num_channels (init_state (initialize_mp3_encoder state rate channels))
        = num_channels state /\
      ((what = "MP3 encoder not found"
        \/ what = "Could not allocate MP3 encoder context") /\
       init_state (initialize_mp3_encoder state rate channels) = state
       \/
       (what = "Could not open MP3 encoder"
        \/ what = "Could not allocate MP3 frame") /\
       is_Some (encoder_ctx
                  (init_state (initialize_mp3_encoder state rate channels))) /\
       frame (init_state (initialize_mp3_encoder state rate channels))
         = frame state
       \/
       what = "Could not allocate MP3 frame buffer" /\
       is_Some (encoder_ctx
                  (init_state (initialize_mp3_encoder state rate channels))) /\
       is_Some (frame
                  (init_state (initialize_mp3_encoder state rate channels))))
  end%string.
Proof.
  unfold initialize_mp3_encoder.
  destruct avcodec_find_encoder; simpl.
  2:{ repeat split; auto. }
  destruct avcodec_alloc_context3 as [c0|]; simpl.
  2:{ repeat split; auto. }
  destruct (avcodec_open2 _) as [ret c].
  destruct (ret <? 0); simpl.
  { repeat split; eauto 10. }
  destruct av_frame_alloc as [f0|]; simpl.
  2:{ repeat split; eauto 10. }
  destruct (av_frame_get_buffer _) as [ret' f].
  destruct (ret' <? 0); simpl.
  { repeat split; eauto 10. }
  eauto.
Qed.

Lemma count_packets_bounded (fuel : nat) :
  forall s n n' s',
    count_packets fuel s n = Some (n', s') ->
    n <= n' <= n + Z.of_nat (pending s).
Proof.
  induction fuel as [|fuel IH]; intros s n n' s'; simpl;
    destruct (avcodec_receive_packet s) as [[ret pkt] s1] eqn:Hrecv;
    destruct (Z.eqb_spec ret 0) as [->|Hret]; try discriminate.
  - intros [= <- _]. lia.
  - intros Hrun. apply IH in Hrun.
    apply receive_packet_progress in Hrecv. lia.
  - intros [= <- _]. lia.
Qed.

(** X15.  A flush of a state with a codec session, when no samples are
    buffered or the channel count is not 0, completes and changes nothing
    but the codec behind the session: the frame, the sample rate, the
    channel count and the settings of the session stay, and the count it
    returns is at most the number of packets the codec had pending once the
    end of the stream was sent. *)
Theorem flush_changes_only_the_codec (state : MP3EncoderState)
    (c : AVCodecContext.t av_state) :
  encoder_ctx state = Some c ->
  buffer state = [] \/ num_channels state <> 0 ->
  exists r,
    flush_mp3_encoder state = Ok r /\
    frame (flush_state r) = frame state /\
    sample_rate (flush_state r) = sample_rate state /\
    num_channels (flush_state r) = num_channels state /\
    (exists s, encoder_ctx (flush_state r)
               = Some (AVCodecContext.set_priv_data s c)) /\
    0 <= flush_return r
      <= Z.of_nat (pending (snd (avcodec_send_frame
                                   (AVCodecContext.priv_data c) None))).
Proof.
  unfold flush_mp3_encoder. intros Hc Hdiv. rewrite Hc.
  destruct (avcodec_send_frame (AVCodecContext.priv_data c) None)
    as [ret s1]. simpl.
  destruct (av_packet_alloc s1); simpl.
  2:{ eexists. split; [reflexivity|]. simpl. repeat split; eauto; lia. }
  destruct (count_packets_terminates (pending s1) s1 0 (le_n _))
    as (n & s2 & Hcount & _).
  rewrite Hcount. apply count_packets_bounded in Hcount.
  destruct (buffer state) as [|x rest].
  - eexists. split; [reflexivity|]. simpl. repeat split; eauto; lia.
  - destruct Hdiv as [Hnil|Hnz]; [discriminate|].
    destruct (Z.eqb_spec (num_channels state) 0); [contradiction|].
    eexists. split; [reflexivity|]. simpl. repeat split; eauto; lia.
Qed.


(** Samples behind the ones a frame is made of are not read. *)
Lemma deinterleave_samples_prefix (interleaved more : list Z) (f f' : AVFrame.t)
    (frame_size num_channels : Z) :
  deinterleave_samples interleaved f frame_size num_channels = Ok f' ->
  deinterleave_samples (interleaved ++ more) f frame_size num_channels = Ok f'.
Proof.
  unfold deinterleave_samples.
  destruct (for_loop _ 0 _ (AVFrame.data f)) as [planes| |] eqn:Hrun;
    simpl; try discriminate.
  intros [= <-].
  rewrite (for_loop_follows _
             (deinterleave_plane (interleaved ++ more) (Z.to_nat frame_size)
                                 (Z.to_nat num_channels))
             _ _ _ planes) with (2 := Hrun); [reflexivity|].
  intros ch ps ps'. unfold deinterleave_plane.
  destruct (ps !! ch) as [plane|]; [|discriminate].
  destruct (for_loop _ 0 _ plane) as [plane'| |] eqn:Hplane;
    simpl; try discriminate.
  intros [= <-].
  rewrite (for_loop_follows _
             (deinterleave_sample (interleaved ++ more)
                                  (Z.to_nat num_channels) ch)
             _ _ _ plane') with (2 := Hplane); [reflexivity|].
  intros i p p'. unfold deinterleave_sample.
  destruct (interleaved !! _) as [v|] eqn:Hv; [|discriminate].
  now rewrite (lookup_app_l_Some _ _ _ _ Hv).
Qed.

(** The fuel of the encode loop does not matter once it covers the
    buffer. *)
Lemma encode_loop_fuel (spf : nat) (fuel : nat) :
  (0 < spf)%nat ->
  forall fuel' state output_data log,
    (length (buffer state) <= fuel)%nat ->
    (length (buffer state) <= fuel')%nat ->
    encode_loop fuel spf state output_data log
    = encode_loop fuel' spf state output_data log.
Proof.
  intros Hspf.
  induction fuel as [|fuel IH]; intros fuel' state out log Hf Hf'.
  - destruct fuel'; simpl;
      destruct (Nat.ltb_spec (length (buffer state)) spf); [reflexivity|lia| |];
      [reflexivity|lia].
  - destruct fuel' as [|fuel'].
    { simpl. destruct (Nat.ltb_spec (length (buffer state)) spf);
        [reflexivity|lia]. }
    simpl. destruct (Nat.ltb_spec (length (buffer state)) spf); [reflexivity|].
    destruct (encoder_ctx state) as [c|]; [|reflexivity].
    destruct (frame state) as [f|]; [|reflexivity].
    destruct (deinterleave_samples _ _ _ _) as [f'| |]; simpl; try reflexivity.
    destruct (avcodec_send_frame _ _) as [ret s1].
    destruct (ret <? 0); [reflexivity|].
    destruct (av_packet_alloc s1); simpl; [|reflexivity].
    destruct (receive_packets _ _ _) as [[[r out'] s2]|]; [|reflexivity].
    apply IH; simpl; rewrite length_drop; lia.
Qed.

(** Records logged before the loop stay in front. *)
Lemma encode_loop_log (spf : nat) (log0 : list log_record) (fuel : nat) :
  forall state output_data log,
    encode_loop fuel spf state output_data (log0 ++ log)
    = let* r := encode_loop fuel spf state output_data log in
      Ok {| enc_state := enc_state r; enc_output := enc_output r;
            enc_log := log0 ++ enc_log r;
            enc_completion := enc_completion r |}.
Proof.
  induction fuel as [|fuel IH]; intros state out log; simpl;
    destruct (length (buffer state) <? spf)%nat; try reflexivity.
  destruct (encoder_ctx state) as [c|]; [|reflexivity].
  destruct (frame state) as [f|]; [|reflexivity].
  destruct (deinterleave_samples _ _ _ _) as [f'| |]; simpl; try reflexivity.
  destruct (avcodec_send_frame _ _) as [ret s1].
  destruct (ret <? 0); [reflexivity|].
  destruct (av_packet_alloc s1); simpl; [|reflexivity].
  destruct (receive_packets _ _ _) as [[[r out'] s2]|]; [|reflexivity].
  destruct (expected_response r); [apply IH|].
  rewrite <- app_assoc. apply IH.
Qed.

(** A loop that returned, run again with more samples behind the buffer:
    it sends the same frames and goes on with what was left and the new
    samples. *)
Lemma encode_loop_app (spf : nat) (more : list Z) (fuel : nat) :
  (0 < spf)%nat ->
  forall state output_data log r fuel',
    encode_loop fuel spf state output_data log = Ok r ->
    enc_completion r = Returned ->
    (length (buffer state ++ more) <= fuel')%nat ->
    encode_loop fuel' spf (set_buffer (buffer state ++ more) state)
                output_data log
    = encode_loop (length (buffer (enc_state r) ++ more)) spf
        (set_buffer (buffer (enc_state r) ++ more) (enc_state r))
        (enc_output r) (enc_log r).
Proof.
  intros Hspf.
  induction fuel as [|fuel IH]; intros state out log r fuel'; simpl;
    destruct (Nat.ltb_spec (length (buffer state)) spf) as [Hlt|Hge];
    try discriminate;
    try (intros [= <-] _ Hfuel; simpl; apply encode_loop_fuel;
         [exact Hspf|exact Hfuel|reflexivity]).
  destruct (encoder_ctx state) as [c|] eqn:Hc; [|discriminate].
  destruct (frame state) as [f|] eqn:Hf; [|discriminate].
  destruct (deinterleave_samples _ _ _ _) as [f'| |] eqn:Hde;
    simpl; try discriminate.
  destruct (avcodec_send_frame _ _) as [ret s1] eqn:Hsend.
  destruct (ret <? 0) eqn:Hret.
  { intros [= <-]. discriminate. }
  destruct (av_packet_alloc s1) eqn:Halloc; simpl.
  2:{ intros [= <-]. discriminate. }
  destruct (receive_packets _ _ _) as [[[rr out'] s2]|] eqn:Hpoll;
    [|discriminate].
  intros Hrun Hdone Hfuel.
  rewrite length_app in Hfuel.
  destruct fuel' as [|fuel']; [lia|].
  simpl. rewrite length_app.
  destruct (Nat.ltb_spec (length (buffer state) + length more) spf); [lia|].
  rewrite Hc, Hf, (deinterleave_samples_prefix _ more _ _ _ _ Hde). simpl.
  rewrite Hsend, Hret, Halloc. simpl. rewrite Hpoll.
  rewrite drop_app_le by exact Hge.
  apply (IH _ _ _ r fuel' Hrun Hdone).
  simpl. rewrite length_app, length_drop. lia.
Qed.


(** On a Ready encoder the call is the loop on the extended buffer. *)
Lemma encode_is_the_loop (state : MP3EncoderState)
    (samples output_data : list Z) :
  Ready state ->
  encode_mp3_samples state samples output_data
  = encode_loop (length (buffer state ++ samples))
      (Z.to_nat (frame_samples state))
      (set_buffer (buffer state ++ samples) state) output_data [].
Proof.
  intros (c & f & Hc & Hf & Hfs & Hnc & Hmax & Hfit).
  unfold encode_mp3_samples, frame_samples. rewrite Hc, Hf. simpl.
  unfold int_mul.
  destruct (Z.leb_spec INT_MIN (AVCodecContext.frame_size c * num_channels state));
    [|unfold INT_MIN in *; nia].
  destruct (Z.leb_spec (AVCodecContext.frame_size c * num_channels state) INT_MAX);
    [|lia].
  simpl. unfold to_size_t.
  now rewrite Z.mod_small by (unfold INT_MAX in *; nia).
Qed.

(** X16.  Samples given to a Ready encoder in two calls are encoded as in
    one call: when the call with the samples [first] returns, the call with
    [first ++ second] ends as the call with [second] on the state and the
    output the first call left: the same state (buffer, frame, codec), the
    same output and the same completion, and the records of both calls in
    the log. *)
Theorem encode_in_two_calls (state : MP3EncoderState)
    (first second output_data : list Z) (r1 : encoded) :
  Ready state ->
  encode_mp3_samples state first output_data = Ok r1 ->
  enc_completion r1 = Returned ->
  encode_mp3_samples state (first ++ second) output_data
  = let* r2 := encode_mp3_samples (enc_state r1) second (enc_output r1) in
    Ok {| enc_state := enc_state r2; enc_output := enc_output r2;
          enc_log := enc_log r1 ++ enc_log r2;
          enc_completion := enc_completion r2 |}.
Proof.
  intros HR Hrun Hdone.
  destruct (encode_completes state first output_data HR)
    as (r & Hrun' & HR1 & Hspf & _).
  assert (r = r1) as -> by congruence. clear Hrun'.
  pose proof HR as (c & f & Hc & Hf & Hfs & Hnc & Hmax & Hfit).
  assert (Hpos : (0 < Z.to_nat (frame_samples state))%nat).
  { unfold frame_samples. rewrite Hc. nia. }
  rewrite (encode_is_the_loop state first output_data HR) in Hrun.
  rewrite (encode_is_the_loop state (first ++ second) output_data HR).
  rewrite (encode_is_the_loop (enc_state r1) second (enc_output r1) HR1).
  rewrite Hspf.
  change (set_buffer (buffer state ++ first ++ second) state)
    with (set_buffer (buffer state ++ first ++ second)
            (set_buffer (buffer state ++ first) state)).
  rewrite app_assoc.
  rewrite (encode_loop_app _ second _ Hpos
             (set_buffer (buffer state ++ first) state) output_data [] r1
             _ Hrun Hdone) by reflexivity.
  rewrite <- (app_nil_r (enc_log r1)) at 1.
  apply encode_loop_log.
Qed.

End Facts.

(** *** Runs on the small codec *)

Section SmallRuns.
#[local] Existing Instance small_av.

(** The encoder is Ready still after a flush. *)
Lemma small_flushed_is_Ready : @Ready small_av small_flushed.
Proof.
  eexists _, _. repeat split; try reflexivity; simpl; try lia.
  - unfold INT_MAX. lia.
  - intros [|[|ch]] plane Hch; simpl; intros [= <-]; simpl; lia.
Qed.

Lemma deinterleave_samples_layout_witness :
  exists f',
    deinterleave_samples ten_samples
        {| AVFrame.nb_samples := 4; AVFrame.format := AV_SAMPLE_FMT_S16P;
           AVFrame.ch_layout := 2;
           AVFrame.data := [[0; 0; 0; 0]; [0; 0; 0; 0]] |} 4 2 = Ok f' /\
    exists left right,
      AVFrame.data f' !! 0%nat = Some left /\ left !! 3%nat = Some 7 /\
      AVFrame.data f' !! 1%nat = Some right /\ right !! 2%nat = Some 6.
Proof.
  destruct (deinterleave_samples_layout ten_samples
              {| AVFrame.nb_samples := 4; AVFrame.format := AV_SAMPLE_FMT_S16P;
                 AVFrame.ch_layout := 2;
                 AVFrame.data := [[0; 0; 0; 0]; [0; 0; 0; 0]] |} 4 2)
    as (f' & Hrun & _ & _ & Hget).
  - split; [simpl; lia|].
    intros [|[|ch]] plane Hch; simpl; intros [= <-]; simpl; lia.
  - simpl. lia.
  - exists f'. split; [exact Hrun|].
    destruct (Hget 0%nat [0; 0; 0; 0] eq_refl) as (l & Hl & _ & Hlget).
    destruct (Hget 1%nat [0; 0; 0; 0] eq_refl) as (r & Hr & _ & Hrget).
    exists l, r. split; [exact Hl|]. split; [exact (Hlget 3%nat)|].
    split; [exact Hr|exact (Hrget 2%nat)].
Defined.

Lemma encode_buffers_incomplete_frame_witness :
  @encode_mp3_samples small_av small_ready [1; 2; 3] [] =
  Ok {| enc_state := set_buffer (buffer small_ready ++ [1; 2; 3]) small_ready;
        enc_output := []; enc_log := [];
        enc_completion := Returned |}.
Proof.
  apply (@encode_buffers_incomplete_frame small_av small_ready [1; 2; 3] []).
  - exact small_ready_is_Ready.
  - reflexivity.
Defined.

Lemma encode_keeps_the_remainder_witness :
  exists r,
    @encode_mp3_samples small_av small_ready ten_samples [] = Ok r /\
    enc_completion r = Returned /\
    buffer (enc_state r) = drop 8 ten_samples /\
    length (buffer (enc_state r)) = 2%nat.
Proof.
  destruct (@encode_keeps_the_remainder small_av small_ready ten_samples []
              small_ready_is_Ready) as (r & Hrun & Hrest).
  assert (Hdone : enc_completion r = Returned).
  { pose proof (f_equal (fun o => match o with
                                  | Ok r => enc_completion r
                                  | _ => Returned
                                  end) Hrun) as Hval.
    vm_compute in Hval. symmetry. exact Hval. }
  exists r. split; [exact Hrun|]. split; [exact Hdone|].
  exact (Hrest Hdone).
Defined.

Lemma encode_refused_frame_stays_buffered_witness :
  exists r,
    @encode_mp3_samples small_av small_flushed ten_samples [] = Ok r /\
    enc_completion r
      = Thrown (runtime_error "Error sending frame to MP3 encoder") /\
    exists sent,
      buffer (enc_state r)
        = drop (sent * Z.to_nat (frame_samples small_flushed))
               (buffer small_flushed ++ ten_samples) /\
      (Z.to_nat (frame_samples small_flushed)
         <= length (buffer (enc_state r)))%nat.
Proof.
  destruct (@encode_refused_frame_stays_buffered small_av small_flushed
              ten_samples [] small_flushed_is_Ready) as (r & Hrun & Hrest).
  assert (Hthrown : enc_completion r
            = Thrown (runtime_error "Error sending frame to MP3 encoder")).
  { pose proof (f_equal (fun o => match o with
                                  | Ok r => enc_completion r
                                  | _ => Returned
                                  end) Hrun) as Hval.
    vm_compute in Hval. symmetry. exact Hval. }
  exists r. split; [exact Hrun|]. split; [exact Hthrown|].
  exact (Hrest Hthrown).
Defined.

Lemma encode_appends_to_output_witness :
  exists r extra,
    @encode_mp3_samples small_av small_leftover ten_samples [255; 251] = Ok r /\
    enc_output r = [255; 251] ++ extra /\
    sample_rate (enc_state r) = sample_rate small_leftover /\
    num_channels (enc_state r) = num_channels small_leftover.
Proof.
  apply (@encode_appends_to_output small_av small_leftover ten_samples
           [255; 251]).
  eexists _, _. repeat split; try reflexivity; simpl; try lia.
  - unfold INT_MAX. lia.
  - intros [|[|ch]] plane Hch; simpl; intros [= <-]; simpl; lia.
Defined.

Lemma flush_changes_only_the_codec_witness :
  exists r,
    @flush_mp3_encoder small_av small_leftover = Ok r /\
    frame (flush_state r) = frame small_leftover /\
    sample_rate (flush_state r) = 48000 /\
    num_channels (flush_state r) = 2 /\
    is_Some (encoder_ctx (flush_state r)) /\
    0 <= flush_return r <= 1.
Proof.
  destruct (encoder_ctx small_leftover) as [c|] eqn:Hc;
    [|vm_compute in Hc; discriminate].
  destruct (@flush_changes_only_the_codec small_av small_leftover c Hc)
    as (r & Hrun & Hf & Hrate & Hch & (s & Hs) & Hn).
  - right. simpl. lia.
  - exists r. split; [exact Hrun|]. split; [exact Hf|].
    split; [exact Hrate|]. split; [exact Hch|]. split; [now rewrite Hs|].
    vm_compute in Hc. injection Hc as <-. exact Hn.
Defined.


Lemma encode_in_two_calls_witness :
  exists r1,
    @encode_mp3_samples small_av small_ready [1; 2; 3; 4; 5] [] = Ok r1 /\
    enc_completion r1 = Returned /\
    @encode_mp3_samples small_av small_ready ([1; 2; 3; 4; 5] ++ [6; 7; 8; 9; 10]) []
    = let* r2 := @encode_mp3_samples small_av (enc_state r1) [6; 7; 8; 9; 10]
                   (enc_output r1) in
      Ok {| enc_state := enc_state r2; enc_output := enc_output r2;
            enc_log := enc_log r1 ++ enc_log r2;
            enc_completion := enc_completion r2 |}.
Proof.
  destruct (@encode_mp3_samples small_av small_ready [1; 2; 3; 4; 5] [])
    as [r1| |] eqn:Hrun; [|vm_compute in Hrun; discriminate..].
  assert (Hdone : enc_completion r1 = Returned).
  { pose proof (f_equal (fun o => match o with
                                  | Ok r => enc_completion r
                                  | _ => Returned
                                  end) Hrun) as Hval.
    vm_compute in Hval. symmetry. exact Hval. }
  exists r1. split; [reflexivity|]. split; [exact Hdone|].
  exact (@encode_in_two_calls small_av small_ready [1; 2; 3; 4; 5]
           [6; 7; 8; 9; 10] [] r1 small_ready_is_Ready Hrun Hdone).
Defined.

End SmallRuns.

End mp3_encoder_accounting.
